(** * SWETA service worker: caching strategy and reminder schedule

    A shallow embedding of [service-worker.js].  The worker is event driven:
    every handler is a chain of promises over the browser's [caches] storage
    and the network.  Promises are modelled by a state-and-rejection monad
    over a [World] holding the cache storage, the promise chains that were
    started but are not awaited by the handler that started them, the log of
    cache-storage operations and the notifications shown so far.

    The browser is part of the model as far as the worker uses it.  A cache
    is the list of the request and response pairs put into it, in insertion
    order; a request matches a stored pair as the Cache interface has it:
    [GET] only, URLs compared without their fragments, and the request
    headers named by the response's [Vary] header compared too.  [cache.put]
    and [cache.addAll] refuse what that interface refuses.  The network is
    an oracle answering each [fetch]; a URL comes with its origin as the URL
    parser gives it.  Console output is left out. *)

From Stdlib Require Import ZArith String Ascii List Bool Lia.
From stdpp Require Import list strings.

Local Open Scope string_scope.
Local Open Scope Z_scope.
Local Open Scope list_scope.

(** ** JavaScript string methods used by the worker *)

(** [s.startsWith(p)] *)
Fixpoint startsWith (s p : string) {struct p} : bool :=
  match p with
  | EmptyString => true
  | String c p' =>
      match s with
      | EmptyString => false
      | String d s' => Ascii.eqb c d && startsWith s' p'
      end
  end.

(** [s.includes(p)]: [p] starts at some position of [s]. *)
Fixpoint includes (s p : string) : bool :=
  startsWith s p ||
  match s with
  | EmptyString => false
  | String _ s' => includes s' p
  end.

(** ** URLs and header lists, as the Cache interface reads them *)

(** A serialized URL without its fragment: what comes before the first
    number sign. *)
Fixpoint exclude_fragment (address : string) : string :=
  match address with
  | EmptyString => EmptyString
  | String c rest =>
      if Ascii.eqb c "#"%char then EmptyString else String c (exclude_fragment rest)
  end.

Definition http_scheme (address : string) : bool :=
  startsWith address "http://" || startsWith address "https://".

Definition byte_lowercase_ascii (c : ascii) : ascii :=
  let n := nat_of_ascii c in
  if (65 <=? n)%nat && (n <=? 90)%nat then ascii_of_nat (n + 32) else c.

(** Header names are compared without regard to the case of letters. *)
Fixpoint byte_lowercase (s : string) : string :=
  match s with
  | EmptyString => EmptyString
  | String c rest => String (byte_lowercase_ascii c) (byte_lowercase rest)
  end.

Definition is_tab_or_space (c : ascii) : bool :=
  Ascii.eqb c " "%char || Ascii.eqb c "009"%char.

Fixpoint trim_start (s : string) : string :=
  match s with
  | EmptyString => EmptyString
  | String c rest => if is_tab_or_space c then trim_start rest else s
  end.

Fixpoint trim_end (s : string) : string :=
  match s with
  | EmptyString => EmptyString
  | String c rest =>
      match trim_end rest with
      | EmptyString => if is_tab_or_space c then EmptyString else String c EmptyString
      | t => String c t
      end
  end.

Definition trim (s : string) : string := trim_end (trim_start s).

(** The pieces of a header value between its commas. *)
Fixpoint split_commas (s : string) : list string :=
  match s with
  | EmptyString => [EmptyString]
  | String c rest =>
      if Ascii.eqb c ","%char then EmptyString :: split_commas rest
      else
        match split_commas rest with
        | [] => [String c EmptyString]
        | piece :: pieces => String c piece :: pieces
        end
  end.

(** The values of the headers of a name, joined as one value; none when the
    list has no header of that name. *)
Definition combined_value (name : string) (hs : list (string * string)) : option string :=
  match map snd
          (List.filter
             (fun h => String.eqb (byte_lowercase (fst h)) (byte_lowercase name)) hs) with
  | [] => None
  | values => Some (String.concat ", " values)
  end.

Definition same_value (a b : option string) : bool :=
  match a, b with
  | Some x, Some y => String.eqb x y
  | None, None => true
  | _, _ => false
  end.

(** ** Data model *)

(** The result of [new URL(request.url)]: the serialized URL and its origin. *)
Record URL := { href : string; origin : string }.

Record Request := {
  method : string;
  url : URL;
  destination : string;
  request_headers : list (string * string)
}.

Record Response := {
  body : string;
  status : Z;
  statusText : string;
  headers : list (string * string);
  type : string
}.

(** [response.clone()]: a second handle on the same status, headers and body. *)
Definition clone (response : Response) : Response := response.

(** The field values of the response's [Vary] header. *)
Definition vary_fields (response : Response) : list string :=
  match combined_value "vary" (headers response) with
  | None => []
  | Some value => map trim (split_commas value)
  end.

Definition vary_star (response : Response) : bool :=
  existsb (fun fieldValue => String.eqb fieldValue "*") (vary_fields response).

(** A settled promise. *)
Inductive Settled (A : Type) : Type :=
| Fulfilled (value : A)
| Rejected (reason : string).
Arguments Fulfilled {A} value.
Arguments Rejected {A} reason.

(** The network, as seen by one call of [fetch]: the promise it returns is
    fulfilled with a response or rejected.  A JavaScript value that may be
    [undefined] is an [option]; the worker tests [!response] before it reads
    the status. *)
Definition Network := Request -> Settled (option Response).

(** One cache of the storage (a partition): the pairs put into it, oldest
    first. *)
Abbreviation Cache := (list (Request * Response)).

(** Promise chains that a handler starts and does not await: the fetch of
    [fetchAndUpdate(request)] with what follows it, and the callback
    [cache => cache.put(request, response)] of an opened cache. *)
Inductive Task :=
| FetchAndUpdate (request : Request)
| Put (cacheName : string) (request : Request) (response : Response).

(** The calls made to the cache storage, as they are logged. *)
Inductive StoreOp :=
| OpMatch (key : string)
| OpOpen (cacheName : string)
| OpPut (cacheName key : string)
| OpKeys
| OpDelete (cacheName : string).

(** A notification as [showNotification] gets it: the title and, of the
    options, the body, the tag (its fixed prefix and the number appended to
    it) and [requireInteraction]; icon and badge are constant images. *)
Record Notification := {
  title : string;
  nbody : string;
  tag : string * Z;
  requireInteraction : bool
}.

Record World := {
  caches : list (string * Cache);
  pending : list Task;
  store_log : list StoreOp;
  shown : list Notification
}.

(** ** Promises *)

Definition Promise (A : Type) : Type := World -> Settled A * World.

Definition resolved {A} (a : A) : Promise A := fun w => (Fulfilled a, w).

Definition then_ {A B} (p : Promise A) (f : A -> Promise B) : Promise B :=
  fun w =>
    match p w with
    | (Fulfilled a, w') => f a w'
    | (Rejected e, w') => (Rejected e, w')
    end.

Definition catch_ {A} (p : Promise A) (h : string -> Promise A) : Promise A :=
  fun w =>
    match p w with
    | (Fulfilled a, w') => (Fulfilled a, w')
    | (Rejected e, w') => h e w'
    end.

Notation "p >>= f" := (then_ p f) (at level 50, left associativity).
Notation "p 'catch' h" := (catch_ p h) (at level 51, left associativity).

(** A chain that is started and not awaited: it runs after the handler. *)
Definition spawn (t : Task) : Promise unit :=
  fun w => (Fulfilled tt,
            {| caches := caches w; pending := pending w ++ [t];
               store_log := store_log w; shown := shown w |}).

Definition log_op (o : StoreOp) : Promise unit :=
  fun w => (Fulfilled tt,
            {| caches := caches w; pending := pending w;
               store_log := store_log w ++ [o]; shown := shown w |}).

Definition set_caches (cs : list (string * Cache)) : Promise unit :=
  fun w => (Fulfilled tt,
            {| caches := cs; pending := pending w;
               store_log := store_log w; shown := shown w |}).

Definition get_caches : Promise (list (string * Cache)) :=
  fun w => (Fulfilled (caches w), w).

(** [fetch(request)] *)
Definition fetch (net : Network) (request : Request) : Promise (option Response) :=
  fun w => (net request, w).

Definition rejected {A} (reason : string) : Promise A :=
  fun w => (Rejected reason, w).

(** [Promise.all]: every promise of the list runs; the result is rejected
    with the first rejection, if any. *)
Fixpoint Promise_all {A} (ps : list (Promise A)) : Promise (list A) :=
  match ps with
  | [] => resolved []
  | p :: ps' =>
      fun w =>
        let (r, w1) := p w in
        let (rs, w2) := Promise_all ps' w1 in
        (match r, rs with
         | Fulfilled a, Fulfilled l => Fulfilled (a :: l)
         | Rejected e, _ => Rejected e
         | _, Rejected e => Rejected e
         end, w2)
  end.

(** ** The cache storage

    [caches] is the browser's [CacheStorage]: named caches in creation
    order. *)

(** Whether [requestQuery] matches the stored pair of [request] and
    [response]: the stored request is a [GET], the URLs are equal up to
    their fragments, and for every field value of the response's [Vary]
    header, which must not be a star, both requests have the same value. *)
Definition request_matches (requestQuery request : Request) (response : Response) : bool :=
  String.eqb (method request) "GET" &&
  String.eqb (exclude_fragment (href (url requestQuery)))
             (exclude_fragment (href (url request))) &&
  forallb
    (fun fieldValue =>
       negb (String.eqb fieldValue "*") &&
       same_value (combined_value fieldValue (request_headers request))
                  (combined_value fieldValue (request_headers requestQuery)))
    (vary_fields response).

Definition entry_matches (requestQuery : Request) (e : Request * Response) : bool :=
  request_matches requestQuery (fst e) (snd e).

(** [cache.match(request)]: the oldest pair that the request matches; a
    request that is not a [GET] matches nothing. *)
Definition cache_match (c : Cache) (request : Request) : option Response :=
  if String.eqb (method request) "GET"
  then option_map snd (List.find (entry_matches request) c)
  else None.

(** The pairs that the request matches are replaced by the new pair. *)
Definition cache_insert (request : Request) (response : Response) (c : Cache) : Cache :=
  List.filter (fun e => negb (entry_matches request e)) c ++ [(request, response)].

(** The first cache, in storage order, that holds a match answers. *)
Fixpoint storage_match (cs : list (string * Cache)) (request : Request) : option Response :=
  match cs with
  | [] => None
  | (_, c) :: cs' =>
      match cache_match c request with
      | Some r => Some r
      | None => storage_match cs' request
      end
  end.

Definition storage_names (cs : list (string * Cache)) : list string := map fst cs.

Definition storage_has (name : string) (cs : list (string * Cache)) : bool :=
  existsb (fun p => String.eqb (fst p) name) cs.

Definition storage_open (name : string) (cs : list (string * Cache)) : list (string * Cache) :=
  if storage_has name cs then cs else cs ++ [(name, [])].

Definition storage_put (name : string) (request : Request) (r : Response)
           (cs : list (string * Cache)) : list (string * Cache) :=
  map (fun p => if String.eqb (fst p) name
                then (fst p, cache_insert request r (snd p))
                else p) cs.

Definition storage_delete (name : string) (cs : list (string * Cache)) : list (string * Cache) :=
  List.filter (fun p => negb (String.eqb (fst p) name)) cs.

(** What the named cache answers to [cache.match(request)]. *)
Fixpoint cache_get (name : string) (request : Request) (cs : list (string * Cache))
  : option Response :=
  match cs with
  | [] => None
  | (n, c) :: cs' => if String.eqb n name then cache_match c request else cache_get name request cs'
  end.

(** What [caches.match(request)] finds in the world [w]. *)
Definition cached (w : World) (request : Request) : option Response :=
  if String.eqb (method request) "GET"
  then storage_match (caches w) request
  else None.

(** [caches.match(request)] *)
Definition caches_match (request : Request) : Promise (option Response) :=
  log_op (OpMatch (href (url request))) >>= fun _ =>
  fun w => (Fulfilled (cached w request), w).

(** [caches.open(name)]: the cache is created when it does not exist. *)
Definition caches_open (name : string) : Promise string :=
  log_op (OpOpen name) >>= fun _ =>
  get_caches >>= fun cs =>
  set_caches (storage_open name cs) >>= fun _ =>
  resolved name.

(** What [cache.put] accepts: a [GET] request of an http or https URL, and
    a response that is not partial content and whose [Vary] header has no
    star. *)
Definition accepts_put (request : Request) (response : Response) : bool :=
  String.eqb (method request) "GET" &&
  http_scheme (href (url request)) &&
  negb (Z.eqb (status response) 206) &&
  negb (vary_star response).

(** [cache.put(request, response)]: rejected for what it does not accept. *)
Definition cache_put (cache : string) (request : Request) (response : Response) : Promise unit :=
  if accepts_put request response then
    log_op (OpPut cache (href (url request))) >>= fun _ =>
    get_caches >>= fun cs =>
    set_caches (storage_put cache request response cs)
  else rejected "TypeError".

(** [caches.keys()] *)
Definition caches_keys : Promise (list string) :=
  log_op OpKeys >>= fun _ =>
  get_caches >>= fun cs => resolved (storage_names cs).

(** [caches.delete(name)] *)
Definition caches_delete (name : string) : Promise bool :=
  log_op (OpDelete name) >>= fun _ =>
  get_caches >>= fun cs =>
  set_caches (storage_delete name cs) >>= fun _ =>
  resolved (storage_has name cs).

(** ** The worker *)

Definition CACHE_NAME := "sweta-v1.0.0".
Definition STATIC_CACHE := "sweta-static-v1.0.0".
Definition DYNAMIC_CACHE := "sweta-dynamic-v1.0.0".

(** What a fetch event ends with: the handler returned without calling
    [event.respondWith] (the browser handles the request by itself), or it
    called [event.respondWith] with a promise that settled. *)
Inductive FetchEventResult :=
| NotIntercepted
| RespondWith (response : Settled (option Response)).

Definition respondWith (p : Promise (option Response)) : World -> FetchEventResult * World :=
  fun w => let (s, w') := p w in (RespondWith s, w').

(** [new Response('Offline - Content not available', {...})] *)
Definition offline_response : Response :=
  {| body := "Offline - Content not available";
     status := 503;
     statusText := "Service Unavailable";
     headers := [("Content-Type", "text/plain")];
     type := "default" |}.

Section Worker.

(** The worker's own [location], and the resolution of a relative URL
    against the worker's base URL. *)
Variable location : URL.
Variable resolve : string -> string.

(** [new Request(u)] for a URL given as a string. *)
Definition new_Request (u : string) : Request :=
  {| method := "GET";
     url := {| href := resolve u; origin := origin location |};
     destination := "";
     request_headers := [] |}.

(** The filter of the activate handler: old cache versions. *)
Definition old_cache (cacheName : string) : bool :=
  startsWith cacheName "sweta-" &&
  negb (String.eqb cacheName STATIC_CACHE) &&
  negb (String.eqb cacheName DYNAMIC_CACHE).

(** Activate event: clean up old caches. *)
Definition activate_listener : Promise (list bool) :=
  caches_keys >>= fun cacheNames =>
  Promise_all
    (map (fun cacheName => caches_delete cacheName)
       (List.filter old_cache cacheNames)).

(** The chain started by [fetchAndUpdate(request)], run once the network
    has answered; the call itself only starts it (see [cache_first]).  The
    cache is opened in the callback of the fetch; the callback of the open,
    which puts the response, is left to run later. *)
Definition fetchAndUpdate (net : Network) (request : Request) : Promise unit :=
  (fetch net request >>= fun response =>
   match response with
   | Some r =>
       if Z.eqb (status r) 200
       then caches_open DYNAMIC_CACHE >>= fun cache =>
            spawn (Put cache request (clone r))
       else resolved tt
   | None => resolved tt
   end)
  catch (fun err => resolved tt).

(** The promise handed to [event.respondWith] for a request that is
    neither forwarded nor left alone: the cache first, then the network. *)
Definition cache_first (net : Network) (request : Request) : Promise (option Response) :=
  caches_match request >>= fun cachedResponse =>
  match cachedResponse with
  | Some c =>
      spawn (FetchAndUpdate request) >>= fun _ =>
      resolved (Some c)
  | None =>
      (fetch net request >>= fun response =>
       match response with
       | None => resolved response
       | Some r =>
           if negb (Z.eqb (status r) 200) || String.eqb (type r) "error"
           then resolved response
           else
             let responseToCache := clone r in
             caches_open DYNAMIC_CACHE >>= fun cache =>
             spawn (Put cache request responseToCache) >>= fun _ =>
             resolved response
       end)
      catch (fun error =>
               if String.eqb (destination request) "document"
               then caches_match (new_Request "./index.html")
               else resolved (Some offline_response))
  end.

(** Fetch event: serve from cache when possible. *)
Definition fetch_listener (net : Network) (request : Request)
  : World -> FetchEventResult * World :=
  let url := url request in
  if includes (href url) "script.google.com" then
    respondWith (fetch net request)
  else if negb (String.eqb (origin url) (origin location)) &&
          negb (includes (href url) "fonts.googleapis.com") then
    fun w => (NotIntercepted, w)
  else
    respondWith (cache_first net request).

(** The requests that pass both tests above and get the cache-first
    treatment. *)
Definition cache_first_applies (request : Request) : bool :=
  negb (includes (href (url request)) "script.google.com") &&
  (String.eqb (origin (url request)) (origin location) ||
   includes (href (url request)) "fonts.googleapis.com").

(** ** The event loop: chains that were started and not awaited *)

Definition run_task (net : Network) (t : Task) : Promise unit :=
  match t with
  | FetchAndUpdate request => fetchAndUpdate net request
  | Put cacheName request response => cache_put cacheName request response
  end.

(** The oldest pending chain makes its progress; its rejection, if any, is
    nobody's to handle. *)
Definition step (net : Network) (w : World) : World :=
  match pending w with
  | [] => w
  | t :: ts =>
      snd (run_task net t
             {| caches := caches w; pending := ts;
                store_log := store_log w; shown := shown w |})
  end.

Definition task_weight (t : Task) : nat :=
  match t with
  | FetchAndUpdate _ => 2
  | Put _ _ _ => 1
  end.

Definition pending_weight (w : World) : nat :=
  list_sum (map task_weight (pending w)).

(** All pending chains run to their end, each fetch answered by [net]. *)
Definition settle (net : Network) (w : World) : World :=
  Nat.iter (pending_weight w) (step net) w.

End Worker.

(** ** What the worker is expected to keep out of the caches *)

(** Every stored response was a plain success. *)
Definition storage_ok (cs : list (string * Cache)) : Prop :=
  Forall (fun p => Forall (fun e => status (snd e) = 200) (snd p)) cs.

Definition task_ok (t : Task) : Prop :=
  match t with
  | FetchAndUpdate _ => True
  | Put _ _ r => status r = 200
  end.

Definition world_ok (w : World) : Prop :=
  storage_ok (caches w) /\ Forall task_ok (pending w).

(** The response a cache miss must not store: none at all, a status other
    than 200, or an error response. *)
Definition not_cacheable (response : option Response) : Prop :=
  match response with
  | None => True
  | Some r => status r <> 200 \/ type r = "error"
  end.

(** ** The reminder schedule *)

Record Date := { getDay : Z; getHours : Z; getMinutes : Z }.

Definition weekly_message := "Happy Sunday! Time for your weekly check-in! 🌟".
Definition morning_message := "Good morning! Time to log your morning activities! ☀️".
Definition hourly_message := "Time to log what you did in the last hour! ⏰".

(** [self.registration.showNotification(title, options)] *)
Definition showNotification (n : Notification) : Promise unit :=
  fun w => (Fulfilled tt,
            {| caches := caches w; pending := pending w;
               store_log := store_log w; shown := shown w ++ [n] |}).

(** The values of [shouldNotify] and [message] when the chain of tests of
    [checkScheduledMessages] is over. *)
Definition scheduled (day hours minutes : Z) : bool * string :=
  let shouldNotify := false in
  let message := "" in
  if ((day =? 0) && (hours =? 12) && (minutes =? 0))%Z then
    (true, weekly_message)
  else if (negb (day =? 0) && (hours =? 8) && (minutes =? 0))%Z then
    (true, morning_message)
  else if (negb (day =? 0) && (minutes =? 30))%Z then
    if ((hours =? 8) || ((hours >=? 9) && (hours <=? 21)))%Z then
      (true, hourly_message)
    else (shouldNotify, message)
  else (shouldNotify, message).

(** [checkScheduledMessages()], with the clock read as [now] and [Date.now()]
    as [stamp]. *)
Definition checkScheduledMessages (now : Date) (stamp : Z) : Promise unit :=
  let hours := getHours now in
  let minutes := getMinutes now in
  let day := getDay now in
  let (shouldNotify, message) := scheduled day hours minutes in
  if shouldNotify then
    showNotification
      {| title := "SWETA - Work Check-in! 💜";
         nbody := message;
         tag := ("scheduled-", stamp);
         requireInteraction := true |}
  else resolved tt.

(** The scheduler's decision: the message of the reminder, if one is due. *)
Definition evaluate (day hours minutes : Z) : option string :=
  let (shouldNotify, message) := scheduled day hours minutes in
  if shouldNotify then Some message else None.


(** ** The other handlers *)

(** Calls to the worker's lifecycle, its clients and its windows.  They
    leave no state that the worker reads back, so a handler just lists the
    calls it makes, in order. *)
Inductive Call :=
| SkipWaiting
| NotificationClose
| ClientFocus (address : string)
| OpenWindow (address : string).

(** [response.ok]: a status from 200 to 299. *)
Definition ok (r : Response) : bool :=
  (200 <=? status r) && (status r <=? 299).

(** The responses that [cache.addAll] accepts: ok, not partial content, not
    an error response, and without a star in the [Vary] header. *)
Definition storable (r : Response) : bool :=
  ok r && negb (Z.eqb (status r) 206) && negb (String.eqb (type r) "error") &&
  negb (vary_star r).

(** The fetches of [cache.addAll]: every request must be a [GET] of an http
    or https URL and every fetch must be fulfilled with a response that can
    be stored; otherwise the whole call is rejected. *)
Fixpoint fetch_all (net : Network) (requests : list Request)
  : Settled (list (Request * Response)) :=
  match requests with
  | [] => Fulfilled []
  | request :: rest =>
      if String.eqb (method request) "GET" && http_scheme (href (url request)) then
        match net request with
        | Fulfilled (Some r) =>
            if storable r
            then match fetch_all net rest with
                 | Fulfilled entries => Fulfilled ((request, r) :: entries)
                 | Rejected e => Rejected e
                 end
            else Rejected "TypeError"
        | _ => Rejected "TypeError"
        end
      else Rejected "TypeError"
  end.

(** Whether a request of the batch matches a pair that the batch has
    already added: [cache.addAll] refuses such a batch. *)
Fixpoint batch_conflict (added entries : list (Request * Response)) : bool :=
  match entries with
  | [] => false
  | (request, r) :: rest =>
      existsb (entry_matches request) added ||
      batch_conflict (added ++ [(request, r)]) rest
  end.

Fixpoint put_all (cache : string) (entries : list (Request * Response)) : Promise unit :=
  match entries with
  | [] => resolved tt
  | (request, r) :: rest => cache_put cache request r >>= fun _ => put_all cache rest
  end.

(** [cache.addAll(requests)]: all the responses are stored, or none is. *)
Definition cache_addAll (net : Network) (cache : string) (requests : list Request)
  : Promise unit :=
  match fetch_all net requests with
  | Fulfilled entries =>
      if batch_conflict [] entries
      then rejected "InvalidStateError"
      else put_all cache entries
  | Rejected e => rejected e
  end.

(** [event.data] of a message event, as far as the worker reads it. *)
Record MessageData := { mtype : string; urls : option (list string) }.

(** A window of [clients.matchAll]: its URL, and whether it has [focus]. *)
Record Client := { client_url : string; focusable : bool }.

(** Files to cache for offline use. *)
Definition staticAssets : list string :=
  [ "./";
    "./index.html";
    "./manifest.json";
    "https://fonts.googleapis.com/css2?family=Quicksand:wght@400;500;600;700&display=swap" ].

Section Handlers.

(** The resolution of a URL against the worker's base URL, and the origin
    the URL parser gives to a resolved URL. *)
Variable resolve : string -> string.
Variable origin_of : string -> string.

(** [new Request(u, ...)] for a URL given as a string, of any origin. *)
Definition Request_of (u : string) : Request :=
  {| method := "GET";
     url := {| href := resolve u; origin := origin_of (resolve u) |};
     destination := "";
     request_headers := [] |}.

(** Install event: cache static assets.  The promise is the one given to
    [event.waitUntil]. *)
Definition install_listener (net : Network) : World -> (Settled unit * list Call) * World :=
  fun w =>
    let (s, w') :=
      ((caches_open STATIC_CACHE >>= fun cache =>
        cache_addAll net cache (map (fun url => Request_of url) staticAssets))
       catch (fun err => resolved tt)) w in
    ((s, [SkipWaiting]), w').

(** Message event: handle messages from the app.  Without a call of
    [event.waitUntil] there is nothing to settle. *)
Definition message_listener (net : Network) (data : option MessageData)
  : World -> (Settled unit * list Call) * World :=
  fun w =>
    let calls :=
      match data with
      | Some d => if String.eqb (mtype d) "SKIP_WAITING" then [SkipWaiting] else []
      | None => []
      end in
    match data with
    | Some d =>
        if String.eqb (mtype d) "CACHE_URLS" then
          let (s, w') :=
            (caches_open DYNAMIC_CACHE >>= fun cache =>
             match urls d with
             | Some us => cache_addAll net cache (map Request_of us)
             | None => rejected "TypeError"
             end) w in
          ((s, calls), w')
        else ((Fulfilled tt, calls), w)
    | None => ((Fulfilled tt, calls), w)
    end.

End Handlers.

(** The loop over the windows of the notification click handler: the first
    window of the application that can be focused. *)
Fixpoint first_window (clientList : list Client) : option Client :=
  match clientList with
  | [] => None
  | client :: rest =>
      if includes (client_url client) "github.io" && focusable client
      then Some client
      else first_window rest
  end.

(** Notification click event; [canOpen] tells whether [clients.openWindow]
    exists. *)
Definition notificationclick_listener (action : string) (clientList : list Client)
           (canOpen : bool) : list Call :=
  NotificationClose ::
  (if String.eqb action "dismiss" then []
   else
     match first_window clientList with
     | Some client => [ClientFocus (client_url client)]
     | None => if canOpen then [OpenWindow "./"] else []
     end).

(** Periodic background sync for scheduled messages. *)
Definition periodicsync_listener (eventTag : string) (now : Date) (stamp : Z)
  : Promise unit :=
  if String.eqb eventTag "check-schedule"
  then checkScheduledMessages now stamp
  else resolved tt.

(** ** Notions used to state what the handlers keep *)

(** A request whose fetch [cache.addAll] accepts. *)
Definition fetchable (net : Network) (request : Request) : bool :=
  String.eqb (method request) "GET" && http_scheme (href (url request)) &&
  match net request with
  | Fulfilled (Some r) => storable r
  | _ => false
  end.

(** Whether a list names something twice. *)
Fixpoint repeats (l : list string) : bool :=
  match l with
  | [] => false
  | x :: rest => existsb (String.eqb x) rest || repeats rest
  end.

(** The pairs of the named cache, if the storage has it. *)
Fixpoint cache_named (name : string) (cs : list (string * Cache)) : option Cache :=
  match cs with
  | [] => None
  | (n, c) :: cs' => if String.eqb n name then Some c else cache_named name cs'
  end.

(** The URL under which a pair is found again. *)
Definition entry_key (e : Request * Response) : string :=
  exclude_fragment (href (url (fst e))).

(** The caches created before the first one of the given name: the ones
    that [caches.match] asks first. *)
Fixpoint preceding (name : string) (cs : list (string * Cache)) : list (string * Cache) :=
  match cs with
  | [] => []
  | (n, c) :: cs' => if String.eqb n name then [] else (n, c) :: preceding name cs'
  end.

(** A pending chain writes, if at all, to the dynamic cache. *)
Definition targets_dynamic (t : Task) : Prop :=
  match t with
  | FetchAndUpdate _ => True
  | Put name _ _ => name = DYNAMIC_CACHE
  end.

(** The instants of one day, minute by minute, at which a reminder is due. *)
Definition reminders_of_day (day : Z) : list (Z * Z) :=
  List.filter
    (fun hm => match evaluate day (fst hm) (snd hm) with Some _ => true | None => false end)
    (list_prod (map Z.of_nat (seq 0 24)) (map Z.of_nat (seq 0 60))).

(** ** Sample data: the application as deployed, and a few requests *)

Definition app_location : URL :=
  {| href := "https://cortinarius-i.github.io/SWETA/service-worker.js";
     origin := "https://cortinarius-i.github.io" |}.

(** Absolute URLs resolve to themselves, the others against the directory
    of the worker. *)
Definition app_resolve (u : string) : string :=
  if http_scheme u then u
  else
    "https://cortinarius-i.github.io/SWETA/" +:+
    (if startsWith u "./" then String.substring 2 (String.length u - 2) u else u).

(** The host of a serialized URL, given what follows the scheme: it ends
    where the path, the query or the fragment starts. *)
Fixpoint host_of (rest : string) : string :=
  match rest with
  | EmptyString => EmptyString
  | String c rest' =>
      if Ascii.eqb c "/"%char || Ascii.eqb c "?"%char || Ascii.eqb c "#"%char
      then EmptyString
      else String c (host_of rest')
  end.

(** The origin of an http or https URL: its scheme and host. *)
Definition app_origin_of (address : string) : string :=
  if startsWith address "https://"
  then "https://" +:+ host_of (String.substring 8 (String.length address - 8) address)
  else if startsWith address "http://"
  then "http://" +:+ host_of (String.substring 7 (String.length address - 7) address)
  else "null".

Definition ok_response (content : string) : Response :=
  {| body := content; status := 200; statusText := "OK";
     headers := [("Content-Type", "text/html")]; type := "basic" |}.

Definition status_response (code : Z) (content : string) : Response :=
  {| body := content; status := code; statusText := "";
     headers := []; type := "basic" |}.


Definition offline : Network := fun _ => Rejected "TypeError: Failed to fetch".

Definition online (r : Response) : Network := fun _ => Fulfilled (Some r).

Definition get_request (address site dest : string) : Request :=
  {| method := "GET";
     url := {| href := address; origin := site |};
     destination := dest;
     request_headers := [] |}.

Definition world_of (cs : list (string * Cache)) : World :=
  {| caches := cs; pending := []; store_log := []; shown := [] |}.

Definition cache_of (request : Request) (r : Response) : Cache :=
  [(request, r)].

(** Both caches of the running version, the dynamic one with one entry. *)
Definition world_with (request : Request) (r : Response) : World :=
  world_of [(STATIC_CACHE, []); (DYNAMIC_CACHE, cache_of request r)].

(** The static cache with one entry, then the empty dynamic cache. *)
Definition world_installed (request : Request) (r : Response) : World :=
  world_of [(STATIC_CACHE, cache_of request r); (DYNAMIC_CACHE, [])].

Definition script_request : Request :=
  get_request "https://script.google.com/macros/s/AKfy/exec"
    "https://script.google.com" "".

Definition report_request : Request :=
  get_request "https://cortinarius-i.github.io/SWETA/help.html?from=script.google.com"
    "https://cortinarius-i.github.io" "document".

Definition page_request : Request :=
  get_request "https://cortinarius-i.github.io/SWETA/log.html"
    "https://cortinarius-i.github.io" "document".

Definition data_request : Request :=
  get_request "https://cortinarius-i.github.io/SWETA/data.json"
    "https://cortinarius-i.github.io" "".

(** The same file, asked for with a fragment. *)
Definition data_fragment_request : Request :=
  get_request "https://cortinarius-i.github.io/SWETA/data.json#totals"
    "https://cortinarius-i.github.io" "".

Definition index_request : Request :=
  get_request "https://cortinarius-i.github.io/SWETA/index.html"
    "https://cortinarius-i.github.io" "document".


Definition cache_urls_message (us : list string) : MessageData :=
  {| mtype := "CACHE_URLS"; urls := Some us |}.

(** * Properties *)

(** ** Strings *)

Lemma startsWith_app (p t : string) : startsWith (p +:+ t) p = true.
Proof.
  induction p as [|c p IH]; simpl; [reflexivity|].
  now rewrite Ascii.eqb_refl, IH.
Qed.

Lemma startsWith_inv (s p : string) :
  startsWith s p = true -> exists t, s = p +:+ t.
Proof.
  revert s; induction p as [|c p IH]; intros s H; simpl in *.
  - now exists s.
  - destruct s as [|d s]; [discriminate|].
    apply andb_prop in H as [Hc Hs].
    apply Ascii.eqb_eq in Hc; subst d.
    destruct (IH _ Hs) as [t ->]. now exists t.
Qed.

Lemma includes_app (pre p post : string) :
  includes (pre +:+ p +:+ post) p = true.
Proof.
  induction pre as [|c pre IH]; simpl.
  - destruct (p +:+ post) eqn:E; simpl; rewrite <- E, startsWith_app; reflexivity.
  - rewrite IH. apply orb_true_r.
Qed.

Lemma includes_inv (s p : string) :
  includes s p = true -> exists pre post, s = pre +:+ p +:+ post.
Proof.
  induction s as [|c s IH]; simpl; intros H.
  - rewrite orb_false_r in H. apply startsWith_inv in H as [t ->].
    now exists "", t.
  - apply orb_prop in H as [H|H].
    + apply startsWith_inv in H as [t Ht]. now exists "", t.
    + destruct (IH H) as (pre & post & ->). now exists (String c pre), post.
Qed.

(** ** Promise chains *)

Ltac chain :=
  unfold respondWith, caches_match, caches_open, cache_put, caches_keys,
    caches_delete, fetch, spawn, log_op, set_caches, get_caches, resolved,
    rejected, then_, catch_, clone in *;
  simpl in *.

(** ** The reminder schedule *)

Lemma messages_distinct :
  weekly_message <> morning_message /\
  weekly_message <> hourly_message /\
  morning_message <> hourly_message.
Proof. repeat split; discriminate. Qed.

Lemma scheduled_message_shown (now : Date) (stamp : Z) (w : World) :
  shown (snd (checkScheduledMessages now stamp w)) =
  shown w ++
  match evaluate (getDay now) (getHours now) (getMinutes now) with
  | Some message =>
      [{| title := "SWETA - Work Check-in! 💜"; nbody := message;
          tag := ("scheduled-", stamp); requireInteraction := true |}]
  | None => []
  end.
Proof.
  unfold checkScheduledMessages, evaluate.
  destruct (scheduled _ _ _) as [[|] message]; simpl.
  - reflexivity.
  - now rewrite app_nil_r.
Qed.

Ltac schedule_cases d h m :=
  unfold evaluate, scheduled;
  destruct (Z.eqb_spec d 0), (Z.eqb_spec h 12), (Z.eqb_spec m 0),
    (Z.eqb_spec h 8), (Z.eqb_spec m 30), (Z.geb_spec h 9), (Z.leb_spec h 21);
  simpl.

(** C7: the scheduler follows the four rules in order and yields at most one
    message.  Sunday 12:00 gives the weekly message; 8:00 on another day the
    morning message; minute 30 on another day with the hour 8 or between 9
    and 21 the hourly message; every other instant gives none, which includes
    Monday 22:30 and Sunday 8:00.  One call of [checkScheduledMessages] shows
    that message, if any, and nothing else. *)
Theorem C7_schedule_rules (day hours minutes : Z) :
  (evaluate day hours minutes = Some weekly_message <->
   day = 0 /\ hours = 12 /\ minutes = 0) /\
  (evaluate day hours minutes = Some morning_message <->
   day <> 0 /\ hours = 8 /\ minutes = 0) /\
  (evaluate day hours minutes = Some hourly_message <->
   day <> 0 /\ minutes = 30 /\ (hours = 8 \/ 9 <= hours <= 21)) /\
  (evaluate day hours minutes = None <->
   ~ (day = 0 /\ hours = 12 /\ minutes = 0) /\
   ~ (day <> 0 /\ hours = 8 /\ minutes = 0) /\
   ~ (day <> 0 /\ minutes = 30 /\ (hours = 8 \/ 9 <= hours <= 21))) /\
  evaluate 0 12 0 = Some weekly_message /\
  evaluate 1 8 0 = Some morning_message /\
  evaluate 1 14 30 = Some hourly_message /\
  evaluate 1 22 30 = None /\
  evaluate 0 8 0 = None /\
  (forall stamp w,
      (length (shown (snd (checkScheduledMessages
                             {| getDay := day; getHours := hours; getMinutes := minutes |}
                             stamp w)))
       <= S (length (shown w)))%nat /\
      map nbody (shown (snd (checkScheduledMessages
                               {| getDay := day; getHours := hours; getMinutes := minutes |}
                               stamp w))) =
      map nbody (shown w) ++
      match evaluate day hours minutes with Some m => [m] | None => [] end).
Proof.
  destruct messages_distinct as (Hwm & Hwh & Hmh).
  repeat match goal with |- _ /\ _ => split end; try reflexivity.
  - schedule_cases day hours minutes; split; intros Hrule;
      try congruence; try lia; exfalso; intuition congruence.
  - schedule_cases day hours minutes; split; intros Hrule;
      try congruence; try lia; exfalso; intuition congruence.
  - schedule_cases day hours minutes; split; intros Hrule;
      try congruence; try lia; exfalso; intuition congruence.
  - schedule_cases day hours minutes; split; intros Hrule;
      try congruence; try lia; exfalso; intuition congruence.
  - intros stamp w. rewrite scheduled_message_shown. simpl.
    destruct (evaluate day hours minutes); split;
      rewrite ?map_app, ?length_app; simpl; try reflexivity; lia.
Qed.


(** ** Activation *)

Lemma snd_Promise_all_cons {A} (p : Promise A) (ps : list (Promise A)) (w : World) :
  snd (Promise_all (p :: ps) w) = snd (Promise_all ps (snd (p w))).
Proof.
  simpl. destruct (p w) as [r w1]. simpl.
  now destruct (Promise_all ps w1) as [rs w2].
Qed.

Lemma Promise_all_delete (names : list string) (w : World) :
  caches (snd (Promise_all (map caches_delete names) w)) =
  fold_left (fun cs n => storage_delete n cs) names (caches w).
Proof.
  revert w; induction names as [|n names IH]; intros w.
  - reflexivity.
  - change (map caches_delete (n :: names))
      with (caches_delete n :: map caches_delete names).
    rewrite snd_Promise_all_cons, IH. reflexivity.
Qed.

Lemma filter_twice {A} (f g : A -> bool) (l : list A) :
  List.filter f (List.filter g l) = List.filter (fun x => g x && f x) l.
Proof.
  induction l as [|x l IH]; simpl; [reflexivity|].
  destruct (g x); simpl; [destruct (f x)|]; now rewrite IH.
Qed.

Lemma fold_storage_delete (names : list string) (cs : list (string * Cache)) :
  fold_left (fun cs n => storage_delete n cs) names cs =
  List.filter (fun p => negb (existsb (String.eqb (fst p)) names)) cs.
Proof.
  revert cs; induction names as [|n names IH]; intros cs; simpl.
  - induction cs as [|p cs IHcs]; simpl; [reflexivity|now rewrite <- IHcs].
  - rewrite IH. unfold storage_delete. rewrite filter_twice.
    apply List.filter_ext. intros p. now rewrite negb_orb.
Qed.

Lemma activate_caches (w : World) :
  caches (snd (activate_listener w)) =
  List.filter (fun p => negb (old_cache (fst p))) (caches w).
Proof.
  unfold activate_listener, caches_keys. chain.
  rewrite Promise_all_delete, fold_storage_delete. simpl.
  apply List.filter_ext_in. intros p Hp. f_equal.
  destruct (old_cache (fst p)) eqn:Hold.
  - apply existsb_exists. exists (fst p). split; [|apply String.eqb_refl].
    apply filter_In. split; [|exact Hold].
    unfold storage_names. now apply in_map.
  - apply not_true_is_false. intros Hex.
    apply existsb_exists in Hex as (n & Hn & Heq).
    apply String.eqb_eq in Heq. subst n.
    apply filter_In in Hn as [_ Hn]. congruence.
Qed.

Lemma cache_get_filter (f : string * Cache -> bool) (name : string) (request : Request)
      (cs : list (string * Cache)) :
  (forall c, f (name, c) = true) ->
  cache_get name request (List.filter f cs) = cache_get name request cs.
Proof.
  intros Hf. induction cs as [|[n c] cs IH]; simpl; [reflexivity|].
  destruct (String.eqb_spec n name) as [->|Hne].
  - rewrite Hf. simpl. now rewrite String.eqb_refl.
  - destruct (f (n, c)); simpl; [|exact IH].
    destruct (String.eqb_spec n name); [contradiction|exact IH].
Qed.

Lemma append_inj_l (p a b : string) : p +:+ a = p +:+ b -> a = b.
Proof. induction p; simpl; intros H; [exact H|injection H; auto]. Qed.

(** The caches that the activate handler leaves alone. *)
Lemma kept_not_old (name : string) :
  name = STATIC_CACHE \/ name = DYNAMIC_CACHE \/ startsWith name "sweta-" = false ->
  old_cache name = false.
Proof.
  intros [->|[->|H]]; [reflexivity|reflexivity|].
  unfold old_cache. now rewrite H.
Qed.

(** C8: whatever caches earlier versions left behind, after the activate
    handler every cache whose name starts with the application's prefix is
    the current static or the current dynamic cache, and a static or dynamic
    cache tagged with another version is gone.  The current static cache,
    the current dynamic cache and the caches of other names are still there
    if they were, and answer every lookup as before. *)
Theorem C8_activate_discards_stale (w : World) :
  (forall name,
      In name (storage_names (caches (snd (activate_listener w)))) ->
      startsWith name "sweta-" = true ->
      name = STATIC_CACHE \/ name = DYNAMIC_CACHE) /\
  (forall version,
      version <> "1.0.0" ->
      ~ In ("sweta-static-v" +:+ version)
           (storage_names (caches (snd (activate_listener w)))) /\
      ~ In ("sweta-dynamic-v" +:+ version)
           (storage_names (caches (snd (activate_listener w))))) /\
  (forall name,
      name = STATIC_CACHE \/ name = DYNAMIC_CACHE \/ startsWith name "sweta-" = false ->
      (In name (storage_names (caches w)) ->
       In name (storage_names (caches (snd (activate_listener w))))) /\
      (forall request,
          cache_get name request (caches (snd (activate_listener w))) =
          cache_get name request (caches w))).
Proof.
  rewrite activate_caches.
  assert (Hkept : forall name,
             In name (storage_names
                        (List.filter (fun p => negb (old_cache (fst p))) (caches w))) ->
             old_cache name = false).
  { intros name Hin. unfold storage_names in Hin.
    apply in_map_iff in Hin as (p & <- & Hp).
    apply filter_In in Hp as [_ Hp]. now apply negb_true_iff in Hp. }
  repeat match goal with |- _ /\ _ => split end.
  - intros name Hin Hpre. apply Hkept in Hin.
    unfold old_cache in Hin. rewrite Hpre in Hin. simpl in Hin.
    destruct (String.eqb_spec name STATIC_CACHE); [now left|].
    destruct (String.eqb_spec name DYNAMIC_CACHE); [now right|discriminate].
  - intros version Hv. split; intros Hin; apply Hkept in Hin;
      unfold old_cache in Hin.
    + replace (startsWith ("sweta-static-v" +:+ version) "sweta-") with true in Hin
        by reflexivity.
      destruct (String.eqb_spec ("sweta-static-v" +:+ version) STATIC_CACHE) as [E|_].
      * apply (append_inj_l "sweta-static-v" version "1.0.0") in E. contradiction.
      * destruct (String.eqb ("sweta-static-v" +:+ version) DYNAMIC_CACHE) eqn:E.
        -- apply String.eqb_eq in E. discriminate E.
        -- discriminate Hin.
    + replace (startsWith ("sweta-dynamic-v" +:+ version) "sweta-") with true in Hin
        by reflexivity.
      destruct (String.eqb_spec ("sweta-dynamic-v" +:+ version) DYNAMIC_CACHE) as [E|_].
      * apply (append_inj_l "sweta-dynamic-v" version "1.0.0") in E. contradiction.
      * destruct (String.eqb ("sweta-dynamic-v" +:+ version) STATIC_CACHE) eqn:E.
        -- apply String.eqb_eq in E. discriminate E.
        -- discriminate Hin.
  - intros name Hname. apply kept_not_old in Hname. split.
    + intros Hin. unfold storage_names in *.
      apply in_map_iff in Hin as (p & <- & Hp).
      apply in_map. apply filter_In. split; [exact Hp|now rewrite Hname].
    + intros request. apply cache_get_filter.
      intros c. simpl. now rewrite Hname.
Qed.

(** ** The cache storage *)

Lemma same_value_refl (a : option string) : same_value a a = true.
Proof. destruct a; simpl; [apply String.eqb_refl|reflexivity]. Qed.

Lemma entry_matches_self (request : Request) (r : Response) :
  accepts_put request r = true -> entry_matches request (request, r) = true.
Proof.
  unfold accepts_put, entry_matches, request_matches, vary_star. simpl.
  intros H. repeat (apply andb_prop in H as [H ?]).
  rewrite H, String.eqb_refl. simpl.
  match goal with Hv : negb (existsb _ _) = true |- _ =>
    apply negb_true_iff in Hv; revert Hv end.
  induction (vary_fields r) as [|f fs IH]; simpl; [reflexivity|].
  intros Hv. apply orb_false_elim in Hv as [Hf Hfs].
  now rewrite Hf, same_value_refl, IH.
Qed.

Lemma find_app_first {A} (f : A -> bool) (a b : list A) :
  List.find f (a ++ b) =
  match List.find f a with Some x => Some x | None => List.find f b end.
Proof.
  induction a as [|x a IH]; simpl; [reflexivity|]. now destruct (f x).
Qed.

Lemma find_filtered_out {A} (f : A -> bool) (l : list A) :
  List.find f (List.filter (fun x => negb (f x)) l) = None.
Proof.
  induction l as [|x l IH]; simpl; [reflexivity|].
  destruct (f x) eqn:E; simpl; [exact IH|now rewrite E].
Qed.

Lemma cache_match_nil (request : Request) : cache_match [] request = None.
Proof. unfold cache_match. now destruct (String.eqb (method request) "GET"). Qed.

Lemma accepts_put_GET (request : Request) (r : Response) :
  accepts_put request r = true -> String.eqb (method request) "GET" = true.
Proof.
  unfold accepts_put. intros H. now repeat (apply andb_prop in H as [H ?]).
Qed.

(** What was put is what the same request finds. *)
Lemma cache_match_insert (request : Request) (r : Response) (c : Cache) :
  accepts_put request r = true ->
  cache_match (cache_insert request r c) request = Some r.
Proof.
  intros Ha. unfold cache_match, cache_insert.
  rewrite (accepts_put_GET request r Ha).
  rewrite find_app_first, find_filtered_out. simpl.
  now rewrite (entry_matches_self request r Ha).
Qed.

Lemma storage_has_open (name : string) (cs : list (string * Cache)) :
  storage_has name (storage_open name cs) = true.
Proof.
  unfold storage_open. destruct (storage_has name cs) eqn:E; [exact E|].
  unfold storage_has. rewrite existsb_app. simpl.
  rewrite String.eqb_refl. now rewrite orb_true_r.
Qed.

Lemma storage_has_put (name n : string) (request : Request) (r : Response)
      (cs : list (string * Cache)) :
  storage_has n (storage_put name request r cs) = storage_has n cs.
Proof.
  unfold storage_has, storage_put.
  induction cs as [|[m c] cs IH]; simpl; [reflexivity|].
  rewrite IH. now destruct (String.eqb m name).
Qed.

Lemma storage_match_open (name : string) (request : Request) (cs : list (string * Cache)) :
  storage_match (storage_open name cs) request = storage_match cs request.
Proof.
  unfold storage_open. destruct (storage_has name cs); [reflexivity|].
  induction cs as [|[n c] cs IH]; simpl.
  - now rewrite cache_match_nil.
  - destruct (cache_match c request); [reflexivity|exact IH].
Qed.

Lemma cache_get_open (name n : string) (request : Request) (cs : list (string * Cache)) :
  cache_get n request (storage_open name cs) = cache_get n request cs.
Proof.
  unfold storage_open. destruct (storage_has name cs) eqn:Hhas; [reflexivity|].
  induction cs as [|[m c] cs IH]; simpl in *.
  - destruct (String.eqb name n); [apply cache_match_nil|reflexivity].
  - apply orb_false_elim in Hhas as [Hm Hcs].
    destruct (String.eqb_spec m n) as [->|Hne]; [reflexivity|now apply IH].
Qed.

Lemma cache_get_put (name : string) (request : Request) (r : Response)
      (cs : list (string * Cache)) :
  storage_has name cs = true ->
  accepts_put request r = true ->
  cache_get name request (storage_put name request r cs) = Some r.
Proof.
  intros Hhas Ha. induction cs as [|[n c] cs IH]; simpl in *; [discriminate|].
  destruct (String.eqb_spec n name) as [->|Hne]; simpl.
  - rewrite String.eqb_refl. now apply cache_match_insert.
  - destruct (String.eqb_spec n name); [contradiction|]. now apply IH.
Qed.

Lemma cache_get_put_other (name n : string) (request q : Request) (r : Response)
      (cs : list (string * Cache)) :
  n <> name ->
  cache_get n q (storage_put name request r cs) = cache_get n q cs.
Proof.
  intros Hne. induction cs as [|[m c] cs IH]; simpl; [reflexivity|].
  destruct (String.eqb_spec m name) as [->|Hm]; simpl.
  - destruct (String.eqb_spec name n); [congruence|exact IH].
  - destruct (String.eqb m n); [reflexivity|exact IH].
Qed.

Lemma storage_match_put_miss (name : string) (request : Request) (r : Response)
      (cs : list (string * Cache)) :
  storage_has name cs = true ->
  accepts_put request r = true ->
  storage_match cs request = None ->
  storage_match (storage_put name request r cs) request = Some r.
Proof.
  intros Hhas Ha. induction cs as [|[n c] cs IH]; simpl in *; [discriminate|].
  destruct (cache_match c request) eqn:Hc; [discriminate|].
  destruct (String.eqb_spec n name) as [->|Hne]; simpl.
  - intros _. now rewrite cache_match_insert.
  - intros Hm. rewrite Hc. now apply IH.
Qed.


Lemma storage_ok_open (name : string) (cs : list (string * Cache)) :
  storage_ok cs -> storage_ok (storage_open name cs).
Proof.
  unfold storage_ok, storage_open. intros H.
  destruct (storage_has name cs); [exact H|].
  apply Forall_app. split; [exact H|].
  constructor; [|constructor]. simpl. constructor.
Qed.

Lemma Forall_filter_keeps {A} (P : A -> Prop) (f : A -> bool) (l : list A) :
  Forall P l -> Forall P (List.filter f l).
Proof.
  induction 1 as [|x l Hx Hl IH]; simpl; [constructor|].
  destruct (f x); [now constructor|exact IH].
Qed.

Lemma storage_ok_put (name : string) (request : Request) (r : Response)
      (cs : list (string * Cache)) :
  status r = 200 -> storage_ok cs -> storage_ok (storage_put name request r cs).
Proof.
  unfold storage_ok, storage_put. intros Hr H.
  induction H as [|[n c] cs Hc Hcs IH]; simpl; constructor; [|exact IH].
  simpl in *. destruct (String.eqb n name); simpl; [|exact Hc].
  unfold cache_insert. apply Forall_app. split.
  - now apply Forall_filter_keeps.
  - constructor; [exact Hr|constructor].
Qed.

Lemma preceding_open (name : string) (cs : list (string * Cache)) :
  preceding name (storage_open name cs) = preceding name cs.
Proof.
  unfold storage_open. destruct (storage_has name cs) eqn:Hhas; [reflexivity|].
  induction cs as [|[m c] cs IH]; simpl in *.
  - now rewrite String.eqb_refl.
  - apply orb_false_elim in Hhas as [Hm Hcs]. rewrite Hm. now rewrite IH.
Qed.

Lemma preceding_put (name : string) (request : Request) (r : Response)
      (cs : list (string * Cache)) :
  preceding name (storage_put name request r cs) = preceding name cs.
Proof.
  induction cs as [|[n c] cs IH]; simpl; [reflexivity|].
  destruct (String.eqb_spec n name) as [->|Hne]; simpl.
  - now rewrite String.eqb_refl.
  - destruct (String.eqb_spec n name); [contradiction|]. now rewrite IH.
Qed.

Lemma storage_match_put_visible (name : string) (request : Request) (r : Response)
      (cs : list (string * Cache)) :
  storage_has name cs = true ->
  accepts_put request r = true ->
  storage_match (preceding name cs) request = None ->
  storage_match (storage_put name request r cs) request = Some r.
Proof.
  intros Hhas Ha. induction cs as [|[n c] cs IH]; simpl in *; [discriminate|].
  destruct (String.eqb_spec n name) as [->|Hne]; simpl.
  - intros _. now rewrite cache_match_insert.
  - intros Hm. destruct (cache_match c request); [discriminate|]. now apply IH.
Qed.

Lemma storage_match_shadowed (name : string) (request : Request) (e : Response)
      (cs : list (string * Cache)) :
  storage_match (preceding name cs) request = Some e ->
  storage_match cs request = Some e.
Proof.
  induction cs as [|[n c] cs IH]; simpl; [discriminate|].
  destruct (String.eqb_spec n name) as [->|Hne]; simpl; [discriminate|].
  destruct (cache_match c request); [trivial|exact IH].
Qed.

Lemma storage_match_put_shadowed (name : string) (request q : Request) (r e : Response)
      (cs : list (string * Cache)) :
  storage_match (preceding name cs) q = Some e ->
  storage_match (storage_put name request r cs) q = Some e.
Proof.
  intros H. apply (storage_match_shadowed name). now rewrite preceding_put.
Qed.

Lemma storage_match_via_cache (name : string) (request : Request) (r : Response)
      (cs : list (string * Cache)) :
  cache_get name request cs = Some r ->
  storage_match (preceding name cs) request = None ->
  storage_match cs request = Some r.
Proof.
  induction cs as [|[n c] cs IH]; simpl; [discriminate|].
  destruct (String.eqb n name); simpl.
  - intros -> _. reflexivity.
  - destruct (cache_match c request); [discriminate|]. exact IH.
Qed.

(** ** The event loop *)

Lemma pending_weight_nil (w : World) :
  pending_weight w = 0%nat -> pending w = [].
Proof.
  unfold pending_weight. destruct (pending w) as [|t ts]; [reflexivity|].
  destruct t; simpl; discriminate.
Qed.

Lemma step_weight (net : Network) (w : World) (n : nat) :
  (pending_weight w <= S n)%nat -> (pending_weight (step net w) <= n)%nat.
Proof.
  unfold pending_weight, step. destruct w as [cs pd lg sh]; simpl.
  destruct pd as [|t ts]; simpl; [lia|].
  destruct t as [request|name request r]; simpl; intros H.
  - unfold fetchAndUpdate. chain.
    destruct (net request) as [[r|]|e]; simpl; try lia.
    destruct (Z.eqb (status r) 200); simpl; try lia.
    rewrite map_app, list_sum_app. simpl. lia.
  - chain. destruct (accepts_put request r); simpl; lia.
Qed.

Lemma iter_step_quiescent (net : Network) (n : nat) (w : World) :
  (pending_weight w <= n)%nat -> pending (Nat.iter n (step net) w) = [].
Proof.
  revert w; induction n as [|n IH]; intros w H.
  - simpl. apply pending_weight_nil. lia.
  - rewrite Nat.iter_succ_r. apply IH. now apply step_weight.
Qed.

(** Enough steps are taken: nothing is pending once the loop has settled. *)
Lemma settle_quiescent (net : Network) (w : World) : pending (settle net w) = [].
Proof. unfold settle. now apply iter_step_quiescent. Qed.


Lemma step_ok (net : Network) (w : World) : world_ok w -> world_ok (step net w).
Proof.
  unfold world_ok, step. destruct w as [cs pd lg sh]; simpl.
  intros [Hcs Hpd]. destruct pd as [|t ts]; simpl; [now split|].
  apply Forall_cons_1 in Hpd as [Ht Hts].
  destruct t as [request|name request r]; simpl in *.
  - unfold fetchAndUpdate. chain.
    destruct (net request) as [[r|]|e]; simpl; try (now split).
    destruct (Z.eqb_spec (status r) 200); simpl; [|now split].
    split; [now apply storage_ok_open|]. apply Forall_app. split; [exact Hts|].
    constructor; [exact e|constructor].
  - chain. destruct (accepts_put request r); simpl; (split; [|exact Hts]).
    + now apply storage_ok_put.
    + exact Hcs.
Qed.

Lemma settle_ok (net : Network) (w : World) : world_ok w -> world_ok (settle net w).
Proof.
  unfold settle. intros H.
  induction (pending_weight w) as [|n IH]; simpl; [exact H|now apply step_ok].
Qed.

Lemma step_frame (net : Network) (w : World) (name : string) (q : Request) :
  Forall targets_dynamic (pending w) ->
  name <> DYNAMIC_CACHE ->
  Forall targets_dynamic (pending (step net w)) /\
  cache_get name q (caches (step net w)) = cache_get name q (caches w).
Proof.
  unfold step. destruct w as [cs pd lg sh]; simpl. intros Hpd Hne.
  destruct pd as [|t ts]; simpl; [now split|].
  apply Forall_cons_1 in Hpd as [Ht Hts].
  destruct t as [request|n request r]; simpl in *.
  - unfold fetchAndUpdate. chain.
    destruct (net request) as [[r|]|e]; simpl; try (now split).
    destruct (Z.eqb (status r) 200); simpl; [|now split].
    split; [|apply cache_get_open]. apply Forall_app. split; [exact Hts|].
    constructor; [reflexivity|constructor].
  - subst n. chain. destruct (accepts_put request r); simpl;
      (split; [exact Hts|]).
    + now apply cache_get_put_other.
    + reflexivity.
Qed.

Lemma iter_step_frame (net : Network) (n : nat) (w : World) (name : string)
      (q : Request) :
  Forall targets_dynamic (pending w) ->
  name <> DYNAMIC_CACHE ->
  Forall targets_dynamic (pending (Nat.iter n (step net) w)) /\
  cache_get name q (caches (Nat.iter n (step net) w)) = cache_get name q (caches w).
Proof.
  intros Hpd Hne. induction n as [|n [IHp IHc]]; simpl; [now split|].
  destruct (step_frame net (Nat.iter n (step net) w) name q IHp Hne) as [Hp Hc].
  split; [exact Hp|congruence].
Qed.

(** One pending put, and nothing else. *)
Lemma settle_put (net : Network) (w : World) (name : string)
      (request : Request) (r : Response) :
  pending w = [Put name request r] ->
  caches (settle net w) =
    (if accepts_put request r then storage_put name request r (caches w) else caches w) /\
  pending (settle net w) = [].
Proof.
  intros Hp. destruct w as [cs pd lg sh]. simpl in *. subst pd.
  unfold settle, pending_weight, step, run_task. simpl. chain.
  destruct (accepts_put request r); simpl; split; reflexivity.
Qed.

(** One pending refresh, and nothing else. *)
Lemma settle_refresh (net : Network) (w : World) (request : Request) :
  pending w = [FetchAndUpdate request] ->
  caches (settle net w) =
    match net request with
    | Fulfilled (Some r) =>
        if Z.eqb (status r) 200
        then if accepts_put request r
             then storage_put DYNAMIC_CACHE request r
                    (storage_open DYNAMIC_CACHE (caches w))
             else storage_open DYNAMIC_CACHE (caches w)
        else caches w
    | _ => caches w
    end /\
  pending (settle net w) = [].
Proof.
  intros Hp. destruct w as [cs pd lg sh]. simpl in *. subst pd.
  unfold settle, pending_weight, step, run_task, fetchAndUpdate. simpl. chain.
  destruct (net request) as [[r|]|e]; simpl; [|split; reflexivity..].
  destruct (Z.eqb (status r) 200); simpl; [|split; reflexivity].
  chain. destruct (accepts_put request r); simpl; split; reflexivity.
Qed.

Lemma fetchAndUpdate_swallows (net : Network) (request : Request) (w : World) :
  fst (fetchAndUpdate net request w) = Fulfilled tt.
Proof.
  unfold fetchAndUpdate. chain.
  destruct (net request) as [[r|]|e]; simpl; try reflexivity.
  destruct (Z.eqb (status r) 200); reflexivity.
Qed.

Lemma fetchAndUpdate_spawns (net : Network) (request : Request) (r : Response)
      (w : World) :
  net request = Fulfilled (Some r) -> status r = 200 ->
  snd (fetchAndUpdate net request w) =
  {| caches := storage_open DYNAMIC_CACHE (caches w);
     pending := pending w ++ [Put DYNAMIC_CACHE request r];
     store_log := store_log w ++ [OpOpen DYNAMIC_CACHE];
     shown := shown w |}.
Proof.
  intros Hn Hs. unfold fetchAndUpdate. chain. now rewrite Hn, Hs.
Qed.

Lemma fetchAndUpdate_idle (net : Network) (request : Request) (w : World) :
  (forall r, net request = Fulfilled (Some r) -> status r <> 200) ->
  snd (fetchAndUpdate net request w) = w.
Proof.
  intros Hn. unfold fetchAndUpdate. chain.
  destruct (net request) as [[r|]|e]; simpl; try reflexivity.
  destruct (Z.eqb_spec (status r) 200) as [Hs|Hs]; [|reflexivity].
  now apply (Hn r) in Hs.
Qed.

Lemma run_put (net : Network) (name : string) (request : Request) (r : Response)
      (w : World) :
  fst (run_task net (Put name request r) w) =
    (if accepts_put request r then Fulfilled tt else Rejected "TypeError") /\
  caches (snd (run_task net (Put name request r) w)) =
    (if accepts_put request r then storage_put name request r (caches w) else caches w).
Proof. unfold run_task. chain. now destruct (accepts_put request r). Qed.

Lemma run_put_get (net : Network) (name : string) (request : Request) (r : Response)
      (w : World) :
  accepts_put request r = true ->
  storage_has name (caches w) = true ->
  cache_get name request (caches (snd (run_task net (Put name request r) w))) = Some r.
Proof.
  intros Ha Hhas. rewrite (proj2 (run_put net name request r w)), Ha.
  now apply cache_get_put.
Qed.

(** ** The fetch handler *)

Section FetchProofs.

Variable location : URL.
Variable resolve : string -> string.

Lemma bypass_forwards (net : Network) (request : Request) (w : World) :
  includes (href (url request)) "script.google.com" = true ->
  fetch_listener location resolve net request w = (RespondWith (net request), w).
Proof. intros H. unfold fetch_listener. rewrite H. reflexivity. Qed.

Lemma cache_first_reached (net : Network) (request : Request) (w : World) :
  cache_first_applies location request = true ->
  fetch_listener location resolve net request w =
  respondWith (cache_first location resolve net request) w.
Proof.
  unfold cache_first_applies, fetch_listener. intros H.
  apply andb_prop in H as [Hb Ho].
  apply negb_true_iff in Hb. rewrite Hb.
  rewrite <- negb_orb, Ho. reflexivity.
Qed.

Lemma respondWith_answers (p : Promise (option Response)) (w : World) :
  fst (respondWith p w) = RespondWith (fst (p w)) /\
  snd (respondWith p w) = snd (p w).
Proof. unfold respondWith. now destruct (p w). Qed.

(** C4: a request whose URL matches the bypass pattern is answered with
    what the network gives, as it is, also when that is a failure; the
    handler performs no cache-storage operation, changes no cache and
    leaves nothing to run later, and the answer is the same whatever the
    caches hold. *)
Theorem C4_bypass_no_store (net : Network) (request : Request) (w : World) :
  includes (href (url request)) "script.google.com" = true ->
  fst (fetch_listener location resolve net request w) = RespondWith (net request) /\
  store_log (snd (fetch_listener location resolve net request w)) = store_log w /\
  caches (snd (fetch_listener location resolve net request w)) = caches w /\
  pending (snd (fetch_listener location resolve net request w)) = pending w /\
  (forall w', fst (fetch_listener location resolve net request w') =
              fst (fetch_listener location resolve net request w)).
Proof.
  intros H. rewrite bypass_forwards by exact H. simpl.
  repeat split. intros w'. now rewrite bypass_forwards.
Qed.

(** C10: the bypass test looks for the text anywhere in the URL.  A request
    whose URL has 'script.google.com' at any position, whatever its origin
    and whatever the caches hold, is forwarded to the network: the answer
    is the network's and the world is left as it was.  Conversely only
    such requests are forwarded this way. *)
Theorem C10_bypass_is_substring (net : Network) (request : Request) (w : World) :
  (forall before after,
      href (url request) = before +:+ "script.google.com" +:+ after ->
      fetch_listener location resolve net request w = (RespondWith (net request), w)) /\
  (includes (href (url request)) "script.google.com" = true <->
   exists before after,
     href (url request) = before +:+ "script.google.com" +:+ after).
Proof.
  split.
  - intros before after E. apply bypass_forwards. rewrite E. apply includes_app.
  - split.
    + apply includes_inv.
    + intros (before & after & E). rewrite E. apply includes_app.
Qed.

(** *** Hits and misses of the cache-first chain *)

Lemma cached_GET (w : World) (request : Request) (c : Response) :
  cached w request = Some c -> method request = "GET".
Proof.
  unfold cached. destruct (String.eqb_spec (method request) "GET"); [trivial|discriminate].
Qed.

Lemma cache_first_hit (net : Network) (request : Request) (w : World) (c : Response) :
  cached w request = Some c ->
  cache_first location resolve net request w =
  (Fulfilled (Some c),
   {| caches := caches w;
      pending := pending w ++ [FetchAndUpdate request];
      store_log := store_log w ++ [OpMatch (href (url request))];
      shown := shown w |}).
Proof.
  intros H. unfold cache_first. chain.
  change (cached _ request) with (cached w request). now rewrite H.
Qed.

Lemma hit_answer (net : Network) (request : Request) (w : World) (c : Response) :
  cache_first_applies location request = true ->
  cached w request = Some c ->
  fst (fetch_listener location resolve net request w) = RespondWith (Fulfilled (Some c)).
Proof.
  intros Ha Hc. rewrite cache_first_reached by exact Ha.
  rewrite (proj1 (respondWith_answers _ w)).
  now rewrite (cache_first_hit net request w c Hc).
Qed.

Lemma not_cacheable_test (r : Response) :
  not_cacheable (Some r) <->
  negb (Z.eqb (status r) 200) || String.eqb (type r) "error" = true.
Proof.
  simpl. rewrite orb_true_iff, negb_true_iff, Z.eqb_neq, String.eqb_eq. reflexivity.
Qed.

Lemma cache_first_miss_plain (net : Network) (request : Request) (w : World)
      (response : option Response) :
  cached w request = None ->
  net request = Fulfilled response ->
  not_cacheable response ->
  cache_first location resolve net request w =
  (Fulfilled response,
   {| caches := caches w;
      pending := pending w;
      store_log := store_log w ++ [OpMatch (href (url request))];
      shown := shown w |}).
Proof.
  intros Hm Hn Hr. unfold cache_first. chain.
  change (cached _ request) with (cached w request). rewrite Hm, Hn.
  destruct response as [r|]; [|reflexivity].
  apply not_cacheable_test in Hr. now rewrite Hr.
Qed.

Lemma cache_first_miss_stored (net : Network) (request : Request) (w : World)
      (r : Response) :
  cached w request = None ->
  net request = Fulfilled (Some r) ->
  status r = 200 -> type r <> "error" ->
  cache_first location resolve net request w =
  (Fulfilled (Some r),
   {| caches := storage_open DYNAMIC_CACHE (caches w);
      pending := pending w ++ [Put DYNAMIC_CACHE request r];
      store_log := store_log w ++
                   [OpMatch (href (url request))] ++ [OpOpen DYNAMIC_CACHE];
      shown := shown w |}).
Proof.
  intros Hm Hn Hs Ht. unfold cache_first. chain.
  change (cached _ request) with (cached w request). rewrite Hm, Hn, Hs.
  destruct (String.eqb_spec (type r) "error"); [contradiction|].
  simpl. now rewrite <- app_assoc.
Qed.

Lemma cache_first_miss_rejected (net : Network) (request : Request) (w : World)
      (e : string) :
  cached w request = None ->
  net request = Rejected e ->
  cache_first location resolve net request w =
  if String.eqb (destination request) "document"
  then (Fulfilled (cached w (new_Request location resolve "./index.html")),
        {| caches := caches w;
           pending := pending w;
           store_log := store_log w ++
                        [OpMatch (href (url request))] ++
                        [OpMatch (resolve "./index.html")];
           shown := shown w |})
  else (Fulfilled (Some offline_response),
        {| caches := caches w;
           pending := pending w;
           store_log := store_log w ++ [OpMatch (href (url request))];
           shown := shown w |}).
Proof.
  intros Hm Hn. unfold cache_first. chain.
  change (cached _ request) with (cached w request). rewrite Hm, Hn.
  destruct (String.eqb (destination request) "document"); simpl; [|reflexivity].
  now rewrite <- app_assoc.
Qed.

Lemma cache_first_ok (net : Network) (request : Request) (w : World) :
  world_ok w -> world_ok (snd (cache_first location resolve net request w)).
Proof.
  unfold world_ok, cache_first. intros [Hcs Hpd]. chain.
  change (cached _ request) with (cached w request).
  destruct (cached w request) as [c|]; simpl.
  - split; [exact Hcs|]. apply Forall_app. split; [exact Hpd|].
    constructor; [exact I|constructor].
  - destruct (net request) as [[r|]|e]; simpl.
    + destruct (Z.eqb_spec (status r) 200) as [Hs|Hs]; simpl; [|now split].
      destruct (String.eqb (type r) "error"); simpl; [now split|].
      split; [now apply storage_ok_open|]. apply Forall_app. split; [exact Hpd|].
      constructor; [exact Hs|constructor].
    + now split.
    + destruct (String.eqb (destination request) "document"); simpl; now split.
Qed.

Lemma fetch_listener_ok (net : Network) (request : Request) (w : World) :
  world_ok w -> world_ok (snd (fetch_listener location resolve net request w)).
Proof.
  intros H. unfold fetch_listener.
  destruct (includes (href (url request)) "script.google.com"); [exact H|].
  destruct (negb _ && negb _); [exact H|].
  rewrite (proj2 (respondWith_answers _ w)). now apply cache_first_ok.
Qed.

(** The caches once the refresh of a hit has settled, with nothing else in
    flight. *)
Lemma hit_then_settle (net refresh : Network) (request : Request) (w : World)
      (c : Response) :
  cache_first_applies location request = true ->
  cached w request = Some c ->
  pending w = [] ->
  caches (settle refresh (snd (fetch_listener location resolve net request w))) =
    match refresh request with
    | Fulfilled (Some r) =>
        if Z.eqb (status r) 200
        then if accepts_put request r
             then storage_put DYNAMIC_CACHE request r
                    (storage_open DYNAMIC_CACHE (caches w))
             else storage_open DYNAMIC_CACHE (caches w)
        else caches w
    | _ => caches w
    end /\
  pending (settle refresh (snd (fetch_listener location resolve net request w))) = [].
Proof.
  intros Ha Hc Hp.
  rewrite cache_first_reached by exact Ha.
  rewrite (proj2 (respondWith_answers _ w)).
  rewrite (cache_first_hit net request w c Hc), Hp.
  cbn [snd app].
  match goal with |- context [settle refresh ?W] =>
    destruct (settle_refresh refresh W request eq_refl) as [-> ->] end.
  split; reflexivity.
Qed.

(** The caches once the put of a stored miss has settled, with nothing else
    in flight. *)
Lemma miss_then_settle (net net' : Network) (request : Request) (w : World)
      (r : Response) :
  cache_first_applies location request = true ->
  cached w request = None ->
  net request = Fulfilled (Some r) ->
  status r = 200 -> type r <> "error" ->
  pending w = [] ->
  caches (settle net' (snd (fetch_listener location resolve net request w))) =
    (if accepts_put request r
     then storage_put DYNAMIC_CACHE request r (storage_open DYNAMIC_CACHE (caches w))
     else storage_open DYNAMIC_CACHE (caches w)) /\
  pending (settle net' (snd (fetch_listener location resolve net request w))) = [].
Proof.
  intros Ha Hm Hn Hs Ht Hp.
  rewrite cache_first_reached by exact Ha.
  rewrite (proj2 (respondWith_answers _ w)).
  rewrite (cache_first_miss_stored net request w r Hm Hn Hs Ht), Hp.
  cbn [snd app].
  match goal with |- context [settle net' ?W] =>
    destruct (settle_put net' W DYNAMIC_CACHE request r eq_refl) as [-> ->] end.
  split; reflexivity.
Qed.

(** *** The claims about the cache-first chain *)

(** C2, amended: for every request that gets the cache-first treatment
    (its URL does not hold the bypass text, and it is same-origin or a
    font request) and has an entry in the caches, the handler answers with
    exactly that entry; the answer and the world the handler leaves are
    the same whatever the network does, and the caches are as before. *)
Theorem C2_hit_serves_cached (net : Network) (request : Request) (w : World)
        (c : Response) :
  cache_first_applies location request = true ->
  cached w request = Some c ->
  fst (fetch_listener location resolve net request w) =
    RespondWith (Fulfilled (Some c)) /\
  (forall net', fetch_listener location resolve net' request w =
                fetch_listener location resolve net request w) /\
  caches (snd (fetch_listener location resolve net request w)) = caches w.
Proof.
  intros Ha Hc. rewrite cache_first_reached by exact Ha.
  unfold respondWith. rewrite (cache_first_hit net request w c Hc). simpl.
  repeat split. intros net'. rewrite cache_first_reached by exact Ha.
  unfold respondWith. now rewrite (cache_first_hit net' request w c Hc).
Qed.

(** C3, amended: on a cache hit the handler answers with the cached entry
    and leaves the refresh to run later.  The refresh chain is never
    rejected, whatever the network does.  When its fetch is fulfilled with a
    response of status exactly 200 it opens the dynamic cache and leaves one
    put of that response; once a put that the cache accepts has run, the
    dynamic cache answers the request with that response, whatever it held
    before.  With any other status, with no response or with a rejected
    fetch the refresh changes nothing.  In a worker with nothing else in
    flight, letting the event loop settle gives these outcomes: the fresh
    response in the dynamic cache when the put is accepted, every cache
    answering as before when it is refused or when there is nothing to
    put. *)
Theorem C3_refresh_on_hit (net : Network) (request : Request) (w : World)
        (c : Response) :
  cache_first_applies location request = true ->
  cached w request = Some c ->
  fst (fetch_listener location resolve net request w) =
    RespondWith (Fulfilled (Some c)) /\
  pending (snd (fetch_listener location resolve net request w)) =
    pending w ++ [FetchAndUpdate request] /\
  (forall net' w', fst (run_task net' (FetchAndUpdate request) w') = Fulfilled tt) /\
  (forall net' w' r,
      net' request = Fulfilled (Some r) -> status r = 200 ->
      pending (snd (run_task net' (FetchAndUpdate request) w')) =
        pending w' ++ [Put DYNAMIC_CACHE request r] /\
      storage_has DYNAMIC_CACHE
        (caches (snd (run_task net' (FetchAndUpdate request) w'))) = true /\
      forall net'' w'',
        accepts_put request r = true ->
        storage_has DYNAMIC_CACHE (caches w'') = true ->
        cache_get DYNAMIC_CACHE request
          (caches (snd (run_task net'' (Put DYNAMIC_CACHE request r) w''))) =
        Some r) /\
  (forall net' w',
      (forall r, net' request = Fulfilled (Some r) -> status r <> 200) ->
      snd (run_task net' (FetchAndUpdate request) w') = w') /\
  (pending w = [] ->
   forall net',
     pending (settle net' (snd (fetch_listener location resolve net request w))) = [] /\
     (forall r,
         net' request = Fulfilled (Some r) -> status r = 200 ->
         accepts_put request r = true ->
         cache_get DYNAMIC_CACHE request
           (caches (settle net' (snd (fetch_listener location resolve net request w))))
         = Some r) /\
     (forall r,
         net' request = Fulfilled (Some r) -> status r = 200 ->
         accepts_put request r = false ->
         forall n q,
           cache_get n q
             (caches (settle net' (snd (fetch_listener location resolve net request w))))
           = cache_get n q (caches w)) /\
     ((forall r, net' request = Fulfilled (Some r) -> status r <> 200) ->
      caches (settle net' (snd (fetch_listener location resolve net request w)))
      = caches w)).
Proof.
  intros Ha Hc.
  split; [now apply hit_answer|]. split; [|split; [|split; [|split]]].
  - rewrite cache_first_reached by exact Ha.
    rewrite (proj2 (respondWith_answers _ w)).
    now rewrite (cache_first_hit net request w c Hc).
  - intros net' w'. apply fetchAndUpdate_swallows.
  - intros net' w' r Hn Hs. cbn [run_task].
    rewrite (fetchAndUpdate_spawns net' request r w' Hn Hs). cbn [pending caches].
    split; [reflexivity|]. split; [apply storage_has_open|].
    intros net'' w'' Hacc Hhas.
    apply (run_put_get net'' DYNAMIC_CACHE request r w'' Hacc Hhas).
  - intros net' w' Hn. apply (fetchAndUpdate_idle net' request w' Hn).
  - intros Hp net'.
    destruct (hit_then_settle net net' request w c Ha Hc Hp) as [Hcs Hpd].
    rewrite Hcs, Hpd. split; [reflexivity|]. split; [|split].
    + intros r Hn Hs Hacc. rewrite Hn, Hs, Hacc. simpl.
      apply cache_get_put; [apply storage_has_open|exact Hacc].
    + intros r Hn Hs Hacc n q. rewrite Hn, Hs, Hacc. simpl. apply cache_get_open.
    + intros Hn. destruct (net' request) as [[r|]|e] eqn:E; try reflexivity.
      destruct (Z.eqb_spec (status r) 200) as [Hs|Hs]; [|reflexivity].
      now apply Hn in Hs.
Qed.

(** C5, amended: for every same-origin [GET] request whose URL does not
    hold the bypass text, that no cache answers, and whose fetch is fulfilled
    with a cacheable response (status 200, not an error response), the
    handler answers with that response, opens the dynamic cache and leaves
    one put of the response.  When the cache accepts that put, then once it
    has run the dynamic cache answers the request with the response, and so
    does a lookup in all the caches unless another cache has come to answer
    the request meanwhile; in a worker with nothing else in flight, after
    the event loop has settled, the response is what the dynamic cache and
    a lookup in all the caches answer.  When the cache refuses the put, the
    response is returned all the same and every cache answers as before. *)
Theorem C5_miss_is_stored (net : Network) (request : Request) (w : World)
        (r : Response) :
  origin (url request) = origin location ->
  includes (href (url request)) "script.google.com" = false ->
  method request = "GET" ->
  cached w request = None ->
  net request = Fulfilled (Some r) ->
  status r = 200 -> type r <> "error" ->
  fst (fetch_listener location resolve net request w) =
    RespondWith (Fulfilled (Some r)) /\
  pending (snd (fetch_listener location resolve net request w)) =
    pending w ++ [Put DYNAMIC_CACHE request r] /\
  storage_has DYNAMIC_CACHE
    (caches (snd (fetch_listener location resolve net request w))) = true /\
  (accepts_put request r = true ->
   (forall net' w',
       storage_has DYNAMIC_CACHE (caches w') = true ->
       cache_get DYNAMIC_CACHE request
         (caches (snd (run_task net' (Put DYNAMIC_CACHE request r) w'))) = Some r /\
       (cached w' request = None ->
        cached (snd (run_task net' (Put DYNAMIC_CACHE request r) w')) request =
        Some r)) /\
   (pending w = [] ->
    forall net',
      cache_get DYNAMIC_CACHE request
        (caches (settle net' (snd (fetch_listener location resolve net request w))))
      = Some r /\
      cached (settle net' (snd (fetch_listener location resolve net request w))) request
      = Some r /\
      pending (settle net' (snd (fetch_listener location resolve net request w))) = [])) /\
  (accepts_put request r = false ->
   pending w = [] ->
   forall net' n q,
     cache_get n q
       (caches (settle net' (snd (fetch_listener location resolve net request w))))
     = cache_get n q (caches w)).
Proof.
  intros Ho Hb Hg Hm Hn Hs Ht.
  assert (Ha : cache_first_applies location request = true).
  { unfold cache_first_applies. rewrite Hb, Ho, String.eqb_refl. reflexivity. }
  assert (Hmiss : storage_match (caches w) request = None).
  { unfold cached in Hm. now rewrite Hg in Hm. }
  rewrite cache_first_reached by exact Ha.
  rewrite (proj1 (respondWith_answers _ w)), (proj2 (respondWith_answers _ w)).
  rewrite (cache_first_miss_stored net request w r Hm Hn Hs Ht).
  cbn [fst snd pending caches].
  split; [reflexivity|]. split; [reflexivity|]. split; [apply storage_has_open|].
  split.
  - intros Hacc. split.
    + intros net' w' Hhas. split.
      * apply (run_put_get net' DYNAMIC_CACHE request r w' Hacc Hhas).
      * intros Hm'. unfold cached in *. rewrite Hg in *.
        rewrite (proj2 (run_put net' DYNAMIC_CACHE request r w')), Hacc.
        now apply storage_match_put_miss.
    + intros Hp net'.
      pose proof (miss_then_settle net net' request w r Ha Hm Hn Hs Ht Hp) as Hsettled.
      rewrite cache_first_reached in Hsettled by exact Ha.
      rewrite (proj2 (respondWith_answers _ w)) in Hsettled.
      rewrite (cache_first_miss_stored net request w r Hm Hn Hs Ht) in Hsettled.
      cbn [snd] in Hsettled. destruct Hsettled as [Hcs Hpd].
      unfold cached. rewrite Hcs, Hpd, Hacc, Hg. simpl.
      repeat split.
      * apply cache_get_put; [apply storage_has_open|exact Hacc].
      * apply storage_match_put_miss; [apply storage_has_open|exact Hacc|].
        now rewrite storage_match_open.
  - intros Hacc Hp net' n q.
    pose proof (miss_then_settle net net' request w r Ha Hm Hn Hs Ht Hp) as Hsettled.
    rewrite cache_first_reached in Hsettled by exact Ha.
    rewrite (proj2 (respondWith_answers _ w)) in Hsettled.
    rewrite (cache_first_miss_stored net request w r Hm Hn Hs Ht) in Hsettled.
    cbn [snd] in Hsettled. destruct Hsettled as [Hcs _].
    rewrite Hcs, Hacc. apply cache_get_open.
Qed.

(** C6: when no cache answers and the fetch is fulfilled with a response
    that is not cacheable (none, a status other than 200, or an error
    response), the handler answers with that response as it is, changes no
    cache, leaves no write behind and performs no cache operation but the
    lookup.  Moreover, from a world whose stored and pending responses all
    have status 200, the handler and the chains it leaves behind, for any
    request and any network, only reach such worlds. *)
Theorem C6_failure_not_stored (net : Network) (request : Request) (w : World)
        (response : option Response) :
  cache_first_applies location request = true ->
  cached w request = None ->
  net request = Fulfilled response ->
  not_cacheable response ->
  fst (fetch_listener location resolve net request w) =
    RespondWith (Fulfilled response) /\
  caches (snd (fetch_listener location resolve net request w)) = caches w /\
  pending (snd (fetch_listener location resolve net request w)) = pending w /\
  store_log (snd (fetch_listener location resolve net request w)) =
    store_log w ++ [OpMatch (href (url request))] /\
  (forall net1 net2 request',
      world_ok w ->
      world_ok (settle net2 (snd (fetch_listener location resolve net1 request' w)))).
Proof.
  intros Ha Hm Hn Hr. rewrite cache_first_reached by exact Ha.
  unfold respondWith.
  rewrite (cache_first_miss_plain net request w response Hm Hn Hr). simpl.
  repeat match goal with |- _ /\ _ => split end; try reflexivity.
  intros net1 net2 request' Hok. now apply settle_ok, fetch_listener_ok.
Qed.


End FetchProofs.

(** ** The handler on the deployed application *)

(** C1: what the code does where the claim asks for a synthesized response.
    The fetch of a page is rejected, the request's destination is a document
    and no cache holds the root document: the handler settles
    [event.respondWith] with the result of [caches.match('./index.html')],
    which is [undefined], and not with a response.  The same failure for a
    request that is not a document gets the 503 plain-text response. *)
Theorem C1_document_without_fallback :
  cached (world_of []) page_request = None /\
  cached (world_of []) (new_Request app_location app_resolve "./index.html") = None /\
  offline page_request = Rejected "TypeError: Failed to fetch" /\
  destination page_request = "document" /\
  fst (fetch_listener app_location app_resolve offline page_request (world_of [])) =
    RespondWith (Fulfilled None) /\
  fst (fetch_listener app_location app_resolve offline data_request (world_of [])) =
    RespondWith (Fulfilled (Some offline_response)).
Proof. repeat split. Qed.

Lemma C2_counterexample :
  cached (world_with script_request (ok_response "stale")) script_request =
    Some (ok_response "stale") /\
  fst (fetch_listener app_location app_resolve (online (ok_response "fresh"))
         script_request (world_with script_request (ok_response "stale"))) =
    RespondWith (Fulfilled (Some (ok_response "fresh"))) /\
  fst (fetch_listener app_location app_resolve (online (ok_response "fresh"))
         script_request (world_with script_request (ok_response "stale"))) <>
    RespondWith (Fulfilled (Some (ok_response "stale"))).
Proof.
  split; [vm_compute; reflexivity|].
  split; [vm_compute; reflexivity|].
  vm_compute. discriminate.
Qed.

Lemma C2_hit_serves_cached_witness :
  cache_first_applies app_location data_fragment_request = true /\
  cached (world_with data_request (ok_response "v1")) data_fragment_request =
    Some (ok_response "v1") /\
  fst (fetch_listener app_location app_resolve offline data_fragment_request
         (world_with data_request (ok_response "v1"))) =
    RespondWith (Fulfilled (Some (ok_response "v1"))).
Proof.
  split; [reflexivity|]. split; [vm_compute; reflexivity|].
  apply (C2_hit_serves_cached app_location app_resolve offline data_fragment_request
           (world_with data_request (ok_response "v1")) (ok_response "v1")).
  - reflexivity.
  - vm_compute; reflexivity.
Defined.

Lemma C3_counterexample :
  cached (world_with data_request (ok_response "v1")) data_request =
    Some (ok_response "v1") /\
  online (status_response 204 "") data_request =
    Fulfilled (Some (status_response 204 "")) /\
  200 <= status (status_response 204 "") < 300 /\
  cache_get DYNAMIC_CACHE data_request
    (caches (settle (online (status_response 204 ""))
               (snd (fetch_listener app_location app_resolve
                       (online (status_response 204 "")) data_request
                       (world_with data_request (ok_response "v1")))))) =
    Some (ok_response "v1") /\
  cache_get DYNAMIC_CACHE data_request
    (caches (settle (online (status_response 204 ""))
               (snd (fetch_listener app_location app_resolve
                       (online (status_response 204 "")) data_request
                       (world_with data_request (ok_response "v1")))))) <>
    Some (status_response 204 "").
Proof.
  split; [vm_compute; reflexivity|].
  split; [reflexivity|].
  split; [simpl; lia|].
  split; [vm_compute; reflexivity|].
  vm_compute. discriminate.
Qed.

Lemma C3_refresh_on_hit_witness :
  cache_first_applies app_location data_request = true /\
  cached (world_with data_request (ok_response "v1")) data_request =
    Some (ok_response "v1") /\
  accepts_put data_request (ok_response "v2") = true /\
  cache_get DYNAMIC_CACHE data_request
    (caches (settle (online (ok_response "v2"))
               (snd (fetch_listener app_location app_resolve
                       (online (ok_response "v2")) data_request
                       (world_with data_request (ok_response "v1")))))) =
    Some (ok_response "v2").
Proof.
  split; [reflexivity|]. split; [vm_compute; reflexivity|].
  split; [vm_compute; reflexivity|].
  assert (H := C3_refresh_on_hit app_location app_resolve (online (ok_response "v2"))
                 data_request (world_with data_request (ok_response "v1"))
                 (ok_response "v1")).
  destruct H as (_ & _ & _ & _ & _ & Hsettled);
    [reflexivity|vm_compute; reflexivity|].
  destruct (Hsettled eq_refl (online (ok_response "v2"))) as (_ & Hstored & _).
  apply Hstored; [reflexivity|reflexivity|vm_compute; reflexivity].
Defined.

Lemma C4_bypass_no_store_witness :
  includes (href (url script_request)) "script.google.com" = true /\
  fst (fetch_listener app_location app_resolve offline script_request
         (world_with script_request (ok_response "stale"))) =
    RespondWith (offline script_request).
Proof.
  split; [reflexivity|].
  apply (C4_bypass_no_store app_location app_resolve offline script_request
           (world_with script_request (ok_response "stale"))).
  reflexivity.
Defined.

Lemma C5_counterexample :
  origin (url report_request) = origin app_location /\
  method report_request = "GET" /\
  cached (world_of []) report_request = None /\
  online (ok_response "help") report_request = Fulfilled (Some (ok_response "help")) /\
  fst (fetch_listener app_location app_resolve (online (ok_response "help"))
         report_request (world_of [])) =
    RespondWith (Fulfilled (Some (ok_response "help"))) /\
  cached (settle (online (ok_response "help"))
            (snd (fetch_listener app_location app_resolve (online (ok_response "help"))
                    report_request (world_of []))))
    report_request = None /\
  cache_get DYNAMIC_CACHE report_request
    (caches (settle (online (ok_response "help"))
               (snd (fetch_listener app_location app_resolve (online (ok_response "help"))
                       report_request (world_of []))))) = None.
Proof. repeat split; vm_compute; reflexivity. Qed.

Lemma C5_miss_is_stored_witness :
  origin (url data_request) = origin app_location /\
  includes (href (url data_request)) "script.google.com" = false /\
  cached (world_of []) data_request = None /\
  accepts_put data_request (ok_response "data") = true /\
  fst (fetch_listener app_location app_resolve (online (ok_response "data"))
         data_request (world_of [])) =
    RespondWith (Fulfilled (Some (ok_response "data"))) /\
  cached (settle offline
            (snd (fetch_listener app_location app_resolve (online (ok_response "data"))
                    data_request (world_of []))))
    data_request = Some (ok_response "data").
Proof.
  split; [reflexivity|]. split; [reflexivity|]. split; [reflexivity|].
  split; [vm_compute; reflexivity|].
  assert (H := C5_miss_is_stored app_location app_resolve (online (ok_response "data"))
                 data_request (world_of []) (ok_response "data")).
  destruct H as (Hanswer & _ & _ & Hstored & _);
    try reflexivity; [discriminate|].
  split; [exact Hanswer|].
  destruct Hstored as [_ Hsettled]; [vm_compute; reflexivity|].
  apply (Hsettled eq_refl offline).
Defined.

Lemma C6_failure_not_stored_witness :
  cache_first_applies app_location data_request = true /\
  cached (world_of []) data_request = None /\
  not_cacheable (Some (status_response 500 "oops")) /\
  fst (fetch_listener app_location app_resolve (online (status_response 500 "oops"))
         data_request (world_of [])) =
    RespondWith (Fulfilled (Some (status_response 500 "oops"))) /\
  caches (snd (fetch_listener app_location app_resolve (online (status_response 500 "oops"))
                 data_request (world_of []))) = [].
Proof.
  split; [reflexivity|]. split; [reflexivity|].
  split; [left; discriminate|].
  assert (H := C6_failure_not_stored app_location app_resolve
                 (online (status_response 500 "oops")) data_request (world_of [])
                 (Some (status_response 500 "oops"))).
  destruct H as (Hanswer & Hcaches & _);
    try reflexivity; [left; discriminate|].
  split; [exact Hanswer|exact Hcaches].
Defined.



Lemma C10_bypass_is_substring_witness :
  origin (url report_request) = origin app_location /\
  href (url report_request) =
    "https://cortinarius-i.github.io/SWETA/help.html?from=" +:+
    "script.google.com" +:+ "" /\
  fetch_listener app_location app_resolve (online (ok_response "help"))
    report_request (world_of []) =
    (RespondWith (Fulfilled (Some (ok_response "help"))), world_of []).
Proof.
  split; [reflexivity|]. split; [reflexivity|].
  apply (proj1 (C10_bypass_is_substring app_location app_resolve
                  (online (ok_response "help")) report_request (world_of []))
           "https://cortinarius-i.github.io/SWETA/help.html?from=" "").
  reflexivity.
Defined.

(** * Further properties of the worker *)

(** ** The fetch handler, branch by branch *)

Section FetchBranches.

Variable location : URL.
Variable resolve : string -> string.

(** X1: the handler leaves a request to the browser exactly when its URL
    does not hold the bypass text, its origin is not the worker's and its
    URL does not hold the font host; the world is then as it was, whatever
    the caches hold and whatever the network would do. *)
Theorem X1_left_to_browser (net : Network) (request : Request) (w : World) :
  (fst (fetch_listener location resolve net request w) = NotIntercepted <->
   includes (href (url request)) "script.google.com" = false /\
   origin (url request) <> origin location /\
   includes (href (url request)) "fonts.googleapis.com" = false) /\
  (fst (fetch_listener location resolve net request w) = NotIntercepted ->
   snd (fetch_listener location resolve net request w) = w).
Proof.
  unfold fetch_listener.
  destruct (includes (href (url request)) "script.google.com").
  { simpl. split; [split; [discriminate|intros (H & _); discriminate]|discriminate]. }
  destruct (String.eqb_spec (origin (url request)) (origin location)) as [Ho|Ho];
    destruct (includes (href (url request)) "fonts.googleapis.com"); simpl.
  - rewrite (proj1 (respondWith_answers _ w)).
    split; [split; [discriminate|intros (_ & H & _); contradiction]|discriminate].
  - rewrite (proj1 (respondWith_answers _ w)).
    split; [split; [discriminate|intros (_ & H & _); contradiction]|discriminate].
  - rewrite (proj1 (respondWith_answers _ w)).
    split; [split; [discriminate|intros (_ & _ & H); discriminate]|discriminate].
  - split; [split; [intros _; repeat split; assumption|reflexivity]|reflexivity].
Qed.

(** X2: when no cache answers a request that is not a document and its
    fetch is rejected, the handler answers with the synthesized response:
    status 503, plain text; it stores nothing and leaves nothing to run
    later. *)
Theorem X2_offline_response (net : Network) (request : Request) (w : World)
        (e : string) :
  cache_first_applies location request = true ->
  cached w request = None ->
  net request = Rejected e ->
  destination request <> "document" ->
  fst (fetch_listener location resolve net request w) =
    RespondWith (Fulfilled (Some offline_response)) /\
  status offline_response = 503 /\
  headers offline_response = [("Content-Type", "text/plain")] /\
  caches (snd (fetch_listener location resolve net request w)) = caches w /\
  pending (snd (fetch_listener location resolve net request w)) = pending w.
Proof.
  intros Ha Hm Hn Hd. rewrite cache_first_reached by exact Ha.
  unfold respondWith. rewrite (cache_first_miss_rejected location resolve net request w e Hm Hn).
  destruct (String.eqb_spec (destination request) "document"); [contradiction|].
  repeat split.
Qed.

(** X3: when no cache answers a document request and its fetch is rejected,
    the handler answers with the cached root document, if there is one; no
    refresh of it is started and the caches stay as they were. *)
Theorem X3_offline_page (net : Network) (request : Request) (w : World)
        (e : string) (page : Response) :
  cache_first_applies location request = true ->
  cached w request = None ->
  net request = Rejected e ->
  destination request = "document" ->
  cached w (new_Request location resolve "./index.html") = Some page ->
  fst (fetch_listener location resolve net request w) =
    RespondWith (Fulfilled (Some page)) /\
  caches (snd (fetch_listener location resolve net request w)) = caches w /\
  pending (snd (fetch_listener location resolve net request w)) = pending w.
Proof.
  intros Ha Hm Hn Hd Hp. rewrite cache_first_reached by exact Ha.
  unfold respondWith. rewrite (cache_first_miss_rejected location resolve net request w e Hm Hn).
  rewrite Hd, Hp. simpl. repeat split.
Qed.

(** X4: for a request that gets the cache-first treatment, the promise
    given to [event.respondWith] is never rejected, and it is fulfilled with
    no response in two cases only, both on a cache miss: the fetch was
    fulfilled with nothing, or the fetch was rejected, the request is a
    document and the root document is not cached. *)
Theorem X4_answer_settles (net : Network) (request : Request) (w : World) :
  cache_first_applies location request = true ->
  (exists v, fst (fetch_listener location resolve net request w) =
             RespondWith (Fulfilled v)) /\
  (fst (fetch_listener location resolve net request w) = RespondWith (Fulfilled None) <->
   cached w request = None /\
   (net request = Fulfilled None \/
    (exists e, net request = Rejected e) /\
    destination request = "document" /\
    cached w (new_Request location resolve "./index.html") = None)).
Proof.
  intros Ha. rewrite cache_first_reached by exact Ha.
  rewrite (proj1 (respondWith_answers _ w)).
  destruct (cached w request) as [c|] eqn:Hc.
  { rewrite (cache_first_hit location resolve net request w c Hc). simpl.
    split; [now eexists|]. split; [discriminate|intros [H _]; discriminate]. }
  destruct (net request) as [[r|]|e] eqn:Hn.
  - assert (Hr : fst (cache_first location resolve net request w) = Fulfilled (Some r)).
    { destruct (Z.eqb_spec (status r) 200) as [Hs|Hs].
      - destruct (String.eqb_spec (type r) "error") as [Ht|Ht].
        + now rewrite (cache_first_miss_plain location resolve net request w (Some r) Hc Hn
                         (or_intror Ht)).
        + now rewrite (cache_first_miss_stored location resolve net request w r Hc Hn Hs Ht).
      - now rewrite (cache_first_miss_plain location resolve net request w (Some r) Hc Hn
                       (or_introl Hs)). }
    rewrite Hr. split; [now eexists|].
    split; [discriminate|].
    intros [_ [H|[[e He] _]]]; discriminate.
  - rewrite (cache_first_miss_plain location resolve net request w None Hc Hn I). simpl.
    split; [now eexists|]. split; [intros _; split; [reflexivity|now left]|reflexivity].
  - rewrite (cache_first_miss_rejected location resolve net request w e Hc Hn).
    destruct (String.eqb_spec (destination request) "document") as [Hd|Hd]; simpl.
    + split; [now eexists|]. split.
      * intros H. injection H as H. split; [reflexivity|]. right.
        split; [now exists e|]. now split.
      * intros [_ [H|(_ & _ & H)]]; [discriminate|now rewrite H].
    + split; [now eexists|]. split; [discriminate|].
      intros [_ [H|(_ & H & _)]]; [discriminate|contradiction].
Qed.

End FetchBranches.

(** ** What the fetch handler does to the world *)

Lemma world_eta (w : World) :
  {| caches := caches w; pending := pending w ++ [];
     store_log := store_log w ++ []; shown := shown w |} = w.
Proof. destruct w. simpl. now rewrite !app_nil_r. Qed.

Section FetchEffects.

Variable location : URL.
Variable resolve : string -> string.

(** The handler looks caches up, opens the dynamic cache at most, and
    queues at most one chain. *)
Lemma cache_first_world (net : Network) (request : Request) (w : World) :
  exists cs ops ts,
    snd (cache_first location resolve net request w) =
    {| caches := cs; pending := pending w ++ ts;
       store_log := store_log w ++ ops; shown := shown w |} /\
    (cs = caches w \/ cs = storage_open DYNAMIC_CACHE (caches w)) /\
    (length ops <= 2)%nat /\
    Forall (fun o => (exists k, o = OpMatch k) \/ o = OpOpen DYNAMIC_CACHE) ops /\
    (length ts <= 1)%nat /\
    Forall targets_dynamic ts.
Proof.
  unfold cache_first. chain.
  change (cached _ request) with (cached w request).
  destruct (cached w request) as [c|]; simpl.
  { exists (caches w), [OpMatch (href (url request))], [FetchAndUpdate request].
    split; [reflexivity|]. split; [now left|]. split; [simpl; lia|].
    split; [constructor; [left; now eexists|constructor]|].
    split; [simpl; lia|]. constructor; [exact I|constructor]. }
  destruct (net request) as [[r|]|e]; simpl.
  - destruct (negb (Z.eqb (status r) 200) || String.eqb (type r) "error"); simpl.
    + exists (caches w), [OpMatch (href (url request))], [].
      rewrite app_nil_r.
      split; [reflexivity|]. split; [now left|]. split; [simpl; lia|].
      split; [constructor; [left; now eexists|constructor]|].
      split; [simpl; lia|constructor].
    + exists (storage_open DYNAMIC_CACHE (caches w)),
        [OpMatch (href (url request)); OpOpen DYNAMIC_CACHE],
        [Put DYNAMIC_CACHE request r].
      rewrite <- app_assoc.
      split; [reflexivity|]. split; [now right|]. split; [simpl; lia|].
      split; [constructor; [left; now eexists|constructor; [now right|constructor]]|].
      split; [simpl; lia|]. constructor; [reflexivity|constructor].
  - exists (caches w), [OpMatch (href (url request))], [].
    rewrite app_nil_r.
    split; [reflexivity|]. split; [now left|]. split; [simpl; lia|].
    split; [constructor; [left; now eexists|constructor]|].
    split; [simpl; lia|constructor].
  - destruct (String.eqb (destination request) "document"); simpl.
    + exists (caches w), [OpMatch (href (url request)); OpMatch (resolve "./index.html")], [].
      rewrite app_nil_r, <- app_assoc.
      split; [reflexivity|]. split; [now left|]. split; [simpl; lia|].
      split; [constructor; [left; now eexists|
                            constructor; [left; now eexists|constructor]]|].
      split; [simpl; lia|constructor].
    + exists (caches w), [OpMatch (href (url request))], [].
      rewrite app_nil_r.
      split; [reflexivity|]. split; [now left|]. split; [simpl; lia|].
      split; [constructor; [left; now eexists|constructor]|].
      split; [simpl; lia|constructor].
Qed.

Lemma fetch_listener_world (net : Network) (request : Request) (w : World) :
  exists cs ops ts,
    snd (fetch_listener location resolve net request w) =
    {| caches := cs; pending := pending w ++ ts;
       store_log := store_log w ++ ops; shown := shown w |} /\
    (cs = caches w \/ cs = storage_open DYNAMIC_CACHE (caches w)) /\
    (length ops <= 2)%nat /\
    Forall (fun o => (exists k, o = OpMatch k) \/ o = OpOpen DYNAMIC_CACHE) ops /\
    (length ts <= 1)%nat /\
    Forall targets_dynamic ts.
Proof.
  assert (Hsame : exists cs ops ts,
             w = {| caches := cs; pending := pending w ++ ts;
                    store_log := store_log w ++ ops; shown := shown w |} /\
             (cs = caches w \/ cs = storage_open DYNAMIC_CACHE (caches w)) /\
             (length ops <= 2)%nat /\
             Forall (fun o => (exists k, o = OpMatch k) \/ o = OpOpen DYNAMIC_CACHE) ops /\
             (length ts <= 1)%nat /\
             Forall targets_dynamic ts).
  { exists (caches w), [], []. rewrite world_eta.
    split; [reflexivity|]. split; [now left|]. split; [simpl; lia|].
    split; [constructor|]. split; [simpl; lia|constructor]. }
  unfold fetch_listener.
  destruct (includes (href (url request)) "script.google.com"); [exact Hsame|].
  destruct (negb _ && negb _); [exact Hsame|].
  rewrite (proj2 (respondWith_answers _ w)). apply cache_first_world.
Qed.

(** X5: whatever the request, the caches and the network, the fetch handler
    itself puts nothing into a cache, deletes nothing and shows nothing.  It
    performs at most two cache operations, each a lookup or the opening of
    the dynamic cache, so that the only change to the storage is that the
    dynamic cache may have been created: every cache answers every lookup
    as before.  It leaves at most one chain to run later. *)
Theorem X5_handler_puts_nothing (net : Network) (request : Request) (w : World) :
  (caches (snd (fetch_listener location resolve net request w)) = caches w \/
   caches (snd (fetch_listener location resolve net request w)) =
     storage_open DYNAMIC_CACHE (caches w)) /\
  (forall n q,
      cache_get n q (caches (snd (fetch_listener location resolve net request w))) =
      cache_get n q (caches w)) /\
  (forall q,
      storage_match (caches (snd (fetch_listener location resolve net request w))) q =
      storage_match (caches w) q) /\
  shown (snd (fetch_listener location resolve net request w)) = shown w /\
  (exists ops,
      store_log (snd (fetch_listener location resolve net request w)) =
        store_log w ++ ops /\
      (length ops <= 2)%nat /\
      Forall (fun o => (exists k, o = OpMatch k) \/ o = OpOpen DYNAMIC_CACHE) ops) /\
  (exists ts,
      pending (snd (fetch_listener location resolve net request w)) = pending w ++ ts /\
      (length ts <= 1)%nat).
Proof.
  destruct (fetch_listener_world net request w)
    as (cs & ops & ts & -> & Hcs & Ho & Hm & Ht & _).
  cbn [caches shown store_log pending].
  split; [exact Hcs|]. split; [|split; [|split; [reflexivity|split]]].
  - intros n q. destruct Hcs as [->| ->]; [reflexivity|apply cache_get_open].
  - intros q. destruct Hcs as [->| ->]; [reflexivity|apply storage_match_open].
  - exists ops. repeat split; assumption.
  - exists ts. split; [reflexivity|assumption].
Qed.

(** X6: request handling writes to the dynamic cache only.  From a world
    whose pending chains write to the dynamic cache, after the handler has
    run for any request and the event loop has settled, every other cache,
    the static one for instance, answers every lookup as before. *)
Theorem X6_only_dynamic_written (net1 net2 : Network) (request : Request) (w : World)
        (name : string) (q : Request) :
  Forall targets_dynamic (pending w) ->
  name <> DYNAMIC_CACHE ->
  cache_get name q
    (caches (settle net2 (snd (fetch_listener location resolve net1 request w)))) =
  cache_get name q (caches w).
Proof.
  intros Hpd Hne.
  destruct (fetch_listener_world net1 request w)
    as (cs & ops & ts & Hw & Hcs & _ & _ & _ & Hts).
  assert (Hpd' : Forall targets_dynamic
                   (pending (snd (fetch_listener location resolve net1 request w)))).
  { rewrite Hw. simpl. apply Forall_app. now split. }
  unfold settle.
  rewrite (proj2 (iter_step_frame net2 _ _ name q Hpd' Hne)).
  rewrite Hw. cbn [caches].
  destruct Hcs as [->| ->]; [reflexivity|apply cache_get_open].
Qed.

End FetchEffects.

(** ** Successive requests *)

Section FetchSequences.

Variable location : URL.
Variable resolve : string -> string.



(** X8: stale-while-revalidate, the second half.  A request is answered from
    the caches while no cache created before the dynamic one answers it;
    with nothing else in flight, once its refresh has ended with a response
    of status 200 that the cache accepts, the next call for the request
    answers with that fresh response, whatever the network does then. *)
Theorem X8_refresh_served_next (net1 net2 refresh : Network) (request : Request)
        (w : World) (c r : Response) :
  cache_first_applies location request = true ->
  cached w request = Some c ->
  pending w = [] ->
  storage_match (preceding DYNAMIC_CACHE (caches w)) request = None ->
  refresh request = Fulfilled (Some r) ->
  status r = 200 ->
  accepts_put request r = true ->
  fst (fetch_listener location resolve net1 request w) =
    RespondWith (Fulfilled (Some c)) /\
  fst (fetch_listener location resolve net2 request
         (settle refresh (snd (fetch_listener location resolve net1 request w)))) =
    RespondWith (Fulfilled (Some r)).
Proof.
  intros Ha Hc Hp Hpre Hn Hs Hacc.
  pose proof (cached_GET w request c Hc) as Hg.
  split; [now apply hit_answer|].
  apply hit_answer; [exact Ha|].
  unfold cached. rewrite Hg. simpl.
  rewrite (proj1 (hit_then_settle location resolve net1 refresh request w c Ha Hc Hp)).
  rewrite Hn, Hs, Hacc. simpl.
  apply storage_match_put_visible; [apply storage_has_open|exact Hacc|].
  now rewrite preceding_open.
Qed.

(** X9: a request that a cache created before the dynamic one answers, as
    the static cache does for the installed files, keeps that answer: with
    nothing else in flight, whatever its refresh fetches and stores, the
    next call answers with the same entry. *)
Theorem X9_earlier_cache_shadows (net1 net2 refresh : Network) (request : Request)
        (w : World) (e : Response) :
  cache_first_applies location request = true ->
  method request = "GET" ->
  pending w = [] ->
  storage_match (preceding DYNAMIC_CACHE (caches w)) request = Some e ->
  fst (fetch_listener location resolve net1 request w) =
    RespondWith (Fulfilled (Some e)) /\
  fst (fetch_listener location resolve net2 request
         (settle refresh (snd (fetch_listener location resolve net1 request w)))) =
    RespondWith (Fulfilled (Some e)).
Proof.
  intros Ha Hg Hp Hpre.
  assert (Hc : cached w request = Some e).
  { unfold cached. rewrite Hg. simpl.
    now apply (storage_match_shadowed DYNAMIC_CACHE). }
  split; [now apply hit_answer|].
  apply hit_answer; [exact Ha|].
  unfold cached. rewrite Hg. simpl.
  rewrite (proj1 (hit_then_settle location resolve net1 refresh request w e Ha Hc Hp)).
  assert (Hopen : storage_match (storage_open DYNAMIC_CACHE (caches w)) request = Some e).
  { apply (storage_match_shadowed DYNAMIC_CACHE). now rewrite preceding_open. }
  assert (Hsame : storage_match (caches w) request = Some e)
    by now apply (storage_match_shadowed DYNAMIC_CACHE).
  destruct (refresh request) as [[r|]|err]; try exact Hsame.
  destruct (Z.eqb (status r) 200); [|exact Hsame].
  destruct (accepts_put request r); [|exact Hopen].
  apply storage_match_put_shadowed. now rewrite preceding_open.
Qed.

(** X10: fetched once, served offline.  When no cache answers a request
    that gets the cache-first treatment and its fetch brings a cacheable
    response that the cache accepts, then with nothing else in flight, once
    the event loop has settled, the next call for the request answers with
    that response, whatever the network does then. *)
Theorem X10_miss_then_hit (net net' net2 : Network) (request : Request) (w : World)
        (r : Response) :
  cache_first_applies location request = true ->
  accepts_put request r = true ->
  cached w request = None ->
  net request = Fulfilled (Some r) ->
  status r = 200 -> type r <> "error" ->
  pending w = [] ->
  fst (fetch_listener location resolve net2 request
         (settle net' (snd (fetch_listener location resolve net request w)))) =
  RespondWith (Fulfilled (Some r)).
Proof.
  intros Ha Hacc Hm Hn Hs Ht Hp.
  pose proof (accepts_put_GET request r Hacc) as Hg.
  apply hit_answer; [exact Ha|].
  unfold cached in *. rewrite Hg in *.
  rewrite (proj1 (miss_then_settle location resolve net net' request w r
                    Ha ltac:(unfold cached; now rewrite Hg) Hn Hs Ht Hp)).
  rewrite Hacc.
  apply storage_match_put_miss; [apply storage_has_open|exact Hacc|].
  now rewrite storage_match_open.
Qed.

End FetchSequences.

(** ** Activation, again *)

Lemma Promise_all_delete_log (names : list string) (w : World) :
  store_log (snd (Promise_all (map caches_delete names) w)) =
  store_log w ++ map OpDelete names.
Proof.
  revert w; induction names as [|n names IH]; intros w.
  - simpl. now rewrite app_nil_r.
  - change (map caches_delete (n :: names))
      with (caches_delete n :: map caches_delete names).
    rewrite snd_Promise_all_cons, IH. chain. now rewrite <- app_assoc.
Qed.

Lemma activate_log (w : World) :
  store_log (snd (activate_listener w)) =
  store_log w ++ OpKeys :: map OpDelete (List.filter old_cache (storage_names (caches w))).
Proof.
  unfold activate_listener, caches_keys. chain.
  rewrite Promise_all_delete_log. simpl. now rewrite <- app_assoc.
Qed.

Lemma no_old_cache_left (cs : list (string * Cache)) :
  List.filter old_cache
    (storage_names (List.filter (fun p => negb (old_cache (fst p))) cs)) = [].
Proof.
  induction cs as [|[n c] cs IH]; simpl; [reflexivity|].
  destruct (old_cache n) eqn:E; simpl; [exact IH|]. now rewrite E.
Qed.

(** X11: activating twice is activating once.  A second run of the activate
    handler finds no old cache: it asks for the names, deletes nothing and
    leaves the caches as the first run left them. *)
Theorem X11_activate_idempotent (w : World) :
  caches (snd (activate_listener (snd (activate_listener w)))) =
    caches (snd (activate_listener w)) /\
  store_log (snd (activate_listener (snd (activate_listener w)))) =
    store_log (snd (activate_listener w)) ++ [OpKeys].
Proof.
  split.
  - rewrite !activate_caches, filter_twice.
    apply List.filter_ext. intros p. now destruct (old_cache (fst p)).
  - rewrite (activate_log (snd (activate_listener w))).
    now rewrite activate_caches, no_old_cache_left.
Qed.

(** ** Storing many responses at once *)

Lemma filter_none_matches {A} (f : A -> bool) (l : list A) :
  existsb f l = false -> List.filter (fun x => negb (f x)) l = l.
Proof.
  induction l as [|x l IH]; simpl; [reflexivity|].
  intros H. apply orb_false_elim in H as [Hx Hl]. now rewrite Hx, IH.
Qed.

Lemma filter_everything {A} (l : list A) : List.filter (fun _ => true) l = l.
Proof. induction l as [|x l IH]; simpl; [reflexivity|now rewrite IH]. Qed.

Lemma find_none_in {A} (f : A -> bool) (l : list A) :
  (forall x, In x l -> f x = false) -> List.find f l = None.
Proof.
  induction l as [|x l IH]; simpl; [reflexivity|]. intros H.
  rewrite (H x (or_introl eq_refl)). apply IH. intros y Hy. apply H. now right.
Qed.

Lemma find_none_filter {A} (f g : A -> bool) (l : list A) :
  List.find f l = None -> List.find f (List.filter g l) = None.
Proof.
  induction l as [|x l IH]; simpl; [reflexivity|].
  destruct (f x) eqn:E; [discriminate|]. intros H.
  destruct (g x); simpl; [rewrite E|]; now apply IH.
Qed.

Lemma entry_matches_key (q : Request) (e : Request * Response) :
  entry_matches q e = true ->
  exclude_fragment (href (url q)) = entry_key e.
Proof.
  unfold entry_matches, request_matches, entry_key. intros H.
  apply andb_prop in H as [H _]. apply andb_prop in H as [_ H].
  now apply String.eqb_eq in H.
Qed.

(** A batch without conflict only adds: what it puts stays, after what is
    left of the old pairs. *)
Lemma fold_insert_shape (entries old pre : list (Request * Response)) :
  batch_conflict pre entries = false ->
  fold_left (fun c e => cache_insert (fst e) (snd e) c) entries (old ++ pre) =
  List.filter (fun e => negb (existsb (fun x => entry_matches (fst x) e) entries)) old
  ++ pre ++ entries.
Proof.
  revert old pre; induction entries as [|[rq0 r0] rest IH]; intros old pre H.
  - simpl. now rewrite filter_everything, app_nil_r.
  - simpl in H. apply orb_false_elim in H as [Hpre Hrest].
    cbn [fold_left fst snd].
    change (cache_insert rq0 r0 (old ++ pre))
      with (List.filter (fun e => negb (entry_matches rq0 e)) (old ++ pre) ++ [(rq0, r0)]).
    rewrite List.filter_app, (filter_none_matches _ pre Hpre), <- app_assoc.
    rewrite (IH _ (pre ++ [(rq0, r0)]) Hrest).
    rewrite filter_twice, <- app_assoc. cbn [app]. f_equal.
    apply List.filter_ext. intros e. cbn [existsb fst]. now rewrite negb_orb.
Qed.

Lemma conflict_free_pairs (added rest : list (Request * Response)) :
  batch_conflict added rest = false ->
  forall e x, In e added -> In x rest -> entry_matches (fst x) e = false.
Proof.
  revert added; induction rest as [|[rq r] rest IH]; intros added H e x He Hx.
  - destruct Hx.
  - simpl in H. apply orb_false_elim in H as [Hadded Hrest].
    destruct Hx as [<-|Hx].
    + simpl. apply not_true_is_false. intros Hm.
      apply not_true_iff_false in Hadded. apply Hadded.
      apply existsb_exists. now exists e.
    + apply (IH _ Hrest); [apply in_or_app; now left|exact Hx].
Qed.

Lemma conflict_found (added rest : list (Request * Response)) :
  forall e x, In e added -> In x rest -> entry_matches (fst x) e = true ->
  batch_conflict added rest = true.
Proof.
  revert added; induction rest as [|[rq r] rest IH]; intros added e x He Hx Hm.
  - destruct Hx.
  - simpl. destruct Hx as [<-|Hx].
    + apply orb_true_iff. left. apply existsb_exists. now exists e.
    + apply orb_true_iff. right.
      apply (IH _ e x); [apply in_or_app; now left|exact Hx|exact Hm].
Qed.

Lemma conflict_free_find (pre entries : list (Request * Response)) (rq : Request)
      (r : Response) :
  batch_conflict pre entries = false ->
  Forall (fun e => accepts_put (fst e) (snd e) = true) entries ->
  In (rq, r) entries ->
  List.find (entry_matches rq) entries = Some (rq, r).
Proof.
  revert pre; induction entries as [|[rq0 r0] rest IH]; intros pre H Hacc Hin.
  - destruct Hin.
  - apply Forall_cons_1 in Hacc as [Hacc0 Hacc].
    simpl in H. apply orb_false_elim in H as [_ Hrest].
    destruct Hin as [Heq|Hin].
    + injection Heq as -> ->. simpl.
      now rewrite (entry_matches_self rq r Hacc0).
    + assert (Hno : entry_matches rq (rq0, r0) = false).
      { apply (conflict_free_pairs _ _ Hrest (rq0, r0) (rq, r));
          [apply in_or_app; right; now left|exact Hin]. }
      simpl. rewrite Hno. now apply (IH (pre ++ [(rq0, r0)])).
Qed.

Lemma distinct_keys_free (pre entries : list (Request * Response)) :
  repeats (map entry_key entries) = false ->
  (forall e p, In e entries -> In p pre -> entry_key e <> entry_key p) ->
  batch_conflict pre entries = false.
Proof.
  revert pre; induction entries as [|[rq0 r0] rest IH]; intros pre Hrep Hpre;
    [reflexivity|].
  simpl in Hrep. apply orb_false_elim in Hrep as [Hhead Hrest].
  simpl. apply orb_false_iff. split.
  - apply not_true_is_false. intros Hex.
    apply existsb_exists in Hex as (p & Hp & Hm).
    apply entry_matches_key in Hm.
    apply (Hpre (rq0, r0) p); [now left|exact Hp|exact Hm].
  - apply IH; [exact Hrest|]. intros e p He Hp.
    apply in_app_or in Hp as [Hp|[<-|[]]].
    + apply Hpre; [now right|exact Hp].
    + intros Heq. apply not_true_iff_false in Hhead. apply Hhead.
      apply existsb_exists. exists (entry_key e).
      split; [now apply in_map|]. apply String.eqb_eq. now symmetry.
Qed.

Lemma distinct_keys_find (entries : list (Request * Response)) (q rq : Request)
      (r : Response) :
  repeats (map entry_key entries) = false ->
  In (rq, r) entries ->
  entry_matches q (rq, r) = true ->
  List.find (entry_matches q) entries = Some (rq, r).
Proof.
  induction entries as [|e0 rest IH]; intros Hrep Hin Hm; [destruct Hin|].
  simpl in Hrep. apply orb_false_elim in Hrep as [Hhead Hrest].
  destruct Hin as [->|Hin]; simpl.
  - now rewrite Hm.
  - destruct (entry_matches q e0) eqn:E0; [|now apply IH].
    exfalso. apply not_true_iff_false in Hhead. apply Hhead.
    apply existsb_exists. exists (entry_key (rq, r)).
    split; [now apply in_map|]. apply String.eqb_eq.
    apply entry_matches_key in E0. apply entry_matches_key in Hm. congruence.
Qed.

(** The named cache of a storage. *)
Lemma cache_get_named (name : string) (q : Request) (cs : list (string * Cache)) :
  cache_get name q cs =
  match cache_named name cs with Some c => cache_match c q | None => None end.
Proof.
  induction cs as [|[n c] cs IH]; simpl; [reflexivity|].
  now destruct (String.eqb n name).
Qed.

Lemma cache_named_put (name : string) (rq : Request) (r : Response)
      (cs : list (string * Cache)) :
  cache_named name (storage_put name rq r cs) =
  option_map (cache_insert rq r) (cache_named name cs).
Proof.
  induction cs as [|[n c] cs IH]; simpl; [reflexivity|].
  destruct (String.eqb n name) eqn:E; simpl; now rewrite E.
Qed.

Lemma cache_named_fold (name : string) (entries : list (Request * Response))
      (cs : list (string * Cache)) :
  cache_named name
    (fold_left (fun cs e => storage_put name (fst e) (snd e) cs) entries cs) =
  option_map (fun c => fold_left (fun c e => cache_insert (fst e) (snd e) c) entries c)
             (cache_named name cs).
Proof.
  revert cs; induction entries as [|e entries IH]; intros cs; simpl.
  - now destruct (cache_named name cs).
  - rewrite IH, cache_named_put. now destruct (cache_named name cs).
Qed.

Lemma cache_named_open (name : string) (cs : list (string * Cache)) :
  cache_named name (storage_open name cs) =
  Some (match cache_named name cs with Some c => c | None => [] end).
Proof.
  unfold storage_open. destruct (storage_has name cs) eqn:Hhas.
  - induction cs as [|[n c] cs IH]; simpl in *; [discriminate|].
    destruct (String.eqb n name); [reflexivity|now apply IH].
  - induction cs as [|[n c] cs IH]; simpl in *.
    + now rewrite String.eqb_refl.
    + apply orb_false_elim in Hhas as [Hn Hcs]. rewrite Hn. now apply IH.
Qed.

Lemma fold_put_has (cache n : string) (entries : list (Request * Response))
      (cs : list (string * Cache)) :
  storage_has n
    (fold_left (fun cs e => storage_put cache (fst e) (snd e) cs) entries cs) =
  storage_has n cs.
Proof.
  revert cs; induction entries as [|e entries IH]; intros cs; simpl; [reflexivity|].
  now rewrite IH, storage_has_put.
Qed.

Lemma fold_put_other_cache (cache n : string) (q : Request)
      (entries : list (Request * Response)) (cs : list (string * Cache)) :
  n <> cache ->
  cache_get n q
    (fold_left (fun cs e => storage_put cache (fst e) (snd e) cs) entries cs) =
  cache_get n q cs.
Proof.
  intros Hne. revert cs; induction entries as [|e entries IH]; intros cs; simpl;
    [reflexivity|].
  rewrite IH. now apply cache_get_put_other.
Qed.

Lemma preceding_fold_put (name : string) (entries : list (Request * Response))
      (cs : list (string * Cache)) :
  preceding name
    (fold_left (fun cs e => storage_put name (fst e) (snd e) cs) entries cs) =
  preceding name cs.
Proof.
  revert cs; induction entries as [|e entries IH]; intros cs; simpl; [reflexivity|].
  now rewrite IH, preceding_put.
Qed.

(** *** What [cache.addAll] fetches *)

Lemma fetch_all_entries (net : Network) (requests : list Request)
      (entries : list (Request * Response)) :
  fetch_all net requests = Fulfilled entries ->
  map fst entries = requests /\
  Forall (fun e => accepts_put (fst e) (snd e) = true /\
                   net (fst e) = Fulfilled (Some (snd e))) entries.
Proof.
  revert entries; induction requests as [|rq rest IH]; intros entries; simpl.
  - intros H. injection H as <-. split; [reflexivity|constructor].
  - destruct (String.eqb (method rq) "GET" && http_scheme (href (url rq))) eqn:Hrq;
      [|discriminate].
    destruct (net rq) as [[r|]|e] eqn:Hn; try discriminate.
    destruct (storable r) eqn:Hs; [|discriminate].
    destruct (fetch_all net rest) as [es|e]; [|discriminate].
    intros H. injection H as <-. destruct (IH es eq_refl) as [Hmap Hall].
    split; [simpl; now rewrite Hmap|].
    constructor; [|exact Hall]. simpl. split; [|exact Hn].
    unfold accepts_put, storable in *. rewrite Hrq.
    repeat (apply andb_prop in Hs as [Hs ?]).
    apply andb_true_iff. split; [apply andb_true_iff; split|]; auto.
Qed.

Lemma fetch_all_accepts (net : Network) (requests : list Request) :
  forallb (fetchable net) requests = true ->
  exists entries, fetch_all net requests = Fulfilled entries.
Proof.
  induction requests as [|rq rest IH]; simpl; intros H.
  - now exists [].
  - apply andb_prop in H as [Hrq Hrest]. unfold fetchable in Hrq.
    apply andb_prop in Hrq as [Hg Hs]. rewrite Hg.
    destruct (net rq) as [[r|]|e] eqn:Hn; try discriminate. rewrite Hs.
    destruct (IH Hrest) as (entries & ->). now eexists.
Qed.

Lemma fetch_all_refuses (net : Network) (requests : list Request) :
  forallb (fetchable net) requests = false ->
  fetch_all net requests = Rejected "TypeError".
Proof.
  induction requests as [|rq rest IH]; simpl; [discriminate|]. intros H.
  unfold fetchable in H.
  destruct (String.eqb (method rq) "GET" && http_scheme (href (url rq))); [|reflexivity].
  destruct (net rq) as [[r|]|e]; try reflexivity.
  destruct (storable r); [|reflexivity]. simpl in H. now rewrite (IH H).
Qed.

Lemma put_all_caches (cache : string) (entries : list (Request * Response)) (w : World) :
  Forall (fun e => accepts_put (fst e) (snd e) = true) entries ->
  fst (put_all cache entries w) = Fulfilled tt /\
  caches (snd (put_all cache entries w)) =
    fold_left (fun cs e => storage_put cache (fst e) (snd e) cs) entries (caches w) /\
  pending (snd (put_all cache entries w)) = pending w.
Proof.
  revert w; induction entries as [|[rq r] entries IH]; intros w Hall; simpl.
  - repeat split.
  - apply Forall_cons_1 in Hall as [Hacc Hall]. simpl in Hacc.
    chain. rewrite Hacc. simpl.
    match goal with |- context [put_all cache entries ?W] =>
      destruct (IH W Hall) as (Hf & Hc & Hp) end.
    repeat split; assumption.
Qed.

Lemma accepted_entries (net : Network) (entries : list (Request * Response)) :
  Forall (fun e => accepts_put (fst e) (snd e) = true /\
                   net (fst e) = Fulfilled (Some (snd e))) entries ->
  Forall (fun e => accepts_put (fst e) (snd e) = true) entries.
Proof. intros H. eapply Forall_impl; [exact H|]. now intros e [Ha _]. Qed.

(** The three ways [cache.addAll] ends. *)
Lemma addAll_refused (net : Network) (cache : string) (requests : list Request)
      (w : World) :
  forallb (fetchable net) requests = false ->
  cache_addAll net cache requests w = (Rejected "TypeError", w).
Proof. intros H. unfold cache_addAll. now rewrite (fetch_all_refuses net requests H). Qed.

Lemma addAll_conflict (net : Network) (cache : string) (requests : list Request)
      (w : World) (entries : list (Request * Response)) :
  fetch_all net requests = Fulfilled entries ->
  batch_conflict [] entries = true ->
  cache_addAll net cache requests w = (Rejected "InvalidStateError", w).
Proof. intros Hf Hc. unfold cache_addAll. now rewrite Hf, Hc. Qed.

Lemma addAll_done (net : Network) (cache : string) (requests : list Request)
      (w : World) (entries : list (Request * Response)) :
  fetch_all net requests = Fulfilled entries ->
  batch_conflict [] entries = false ->
  fst (cache_addAll net cache requests w) = Fulfilled tt /\
  caches (snd (cache_addAll net cache requests w)) =
    fold_left (fun cs e => storage_put cache (fst e) (snd e) cs) entries (caches w) /\
  pending (snd (cache_addAll net cache requests w)) = pending w.
Proof.
  intros Hf Hc. unfold cache_addAll. rewrite Hf, Hc.
  apply put_all_caches.
  apply (accepted_entries net), (fetch_all_entries net requests entries Hf).
Qed.

(** Whatever way it ends, the other caches, the caches created before the
    named one and the chains in flight are as they were; when it is
    rejected so is the whole world. *)
Lemma addAll_frame (net : Network) (cache : string) (requests : list Request)
      (w : World) :
  storage_has cache (caches (snd (cache_addAll net cache requests w))) =
    storage_has cache (caches w) /\
  pending (snd (cache_addAll net cache requests w)) = pending w /\
  preceding cache (caches (snd (cache_addAll net cache requests w))) =
    preceding cache (caches w) /\
  (forall n q, n <> cache ->
      cache_get n q (caches (snd (cache_addAll net cache requests w))) =
      cache_get n q (caches w)) /\
  (forall e, fst (cache_addAll net cache requests w) = Rejected e ->
             snd (cache_addAll net cache requests w) = w).
Proof.
  destruct (fetch_all net requests) as [entries|e] eqn:Hf.
  - destruct (batch_conflict [] entries) eqn:Hc.
    + rewrite (addAll_conflict net cache requests w entries Hf Hc). now repeat split.
    + destruct (addAll_done net cache requests w entries Hf Hc) as (Hful & Hcs & Hpd).
      rewrite Hcs, Hpd, Hful. repeat split.
      * apply fold_put_has.
      * apply preceding_fold_put.
      * intros n q Hne. now apply fold_put_other_cache.
      * discriminate.
  - unfold cache_addAll. rewrite Hf. now repeat split.
Qed.

(** What the named cache answers after a batch without conflict. *)
Lemma batch_stored (cache : string) (entries : list (Request * Response))
      (cs : list (string * Cache)) (q rq : Request) (r : Response) :
  storage_has cache cs = true ->
  batch_conflict [] entries = false ->
  method q = "GET" ->
  cache_get cache q cs = None ->
  List.find (entry_matches q) entries = Some (rq, r) ->
  cache_get cache q
    (fold_left (fun cs e => storage_put cache (fst e) (snd e) cs) entries cs) = Some r.
Proof.
  intros Hhas Hc Hg Hold Hfind.
  rewrite cache_get_named in *. rewrite cache_named_fold.
  destruct (cache_named cache cs) as [c|] eqn:Hnamed.
  - simpl. pose proof (fold_insert_shape entries c [] Hc) as Hshape.
    rewrite app_nil_r in Hshape. rewrite Hshape. cbn [app].
    unfold cache_match in *. rewrite Hg in *.
    rewrite find_app_first, find_none_filter, Hfind; [reflexivity|].
    now destruct (List.find (entry_matches q) c).
  - exfalso. clear - Hhas Hnamed.
    induction cs as [|[n c] cs IH]; simpl in *; [discriminate|].
    destruct (String.eqb n cache); [discriminate|]. now apply IH.
Qed.

Lemma batch_stored_own (cache : string) (entries : list (Request * Response))
      (cs : list (string * Cache)) (rq : Request) (r : Response) :
  storage_has cache cs = true ->
  batch_conflict [] entries = false ->
  Forall (fun e => accepts_put (fst e) (snd e) = true) entries ->
  In (rq, r) entries ->
  cache_get cache rq
    (fold_left (fun cs e => storage_put cache (fst e) (snd e) cs) entries cs) = Some r.
Proof.
  intros Hhas Hc Hacc Hin.
  assert (Hg : String.eqb (method rq) "GET" = true).
  { rewrite Forall_forall in Hacc.
    apply (accepts_put_GET rq r). apply (Hacc (rq, r)). now apply list_elem_of_In. }
  rewrite cache_get_named, cache_named_fold.
  destruct (cache_named cache cs) as [c|] eqn:Hnamed.
  - simpl. pose proof (fold_insert_shape entries c [] Hc) as Hshape.
    rewrite app_nil_r in Hshape. rewrite Hshape. cbn [app].
    unfold cache_match. rewrite Hg.
    rewrite find_app_first, find_none_in.
    + now rewrite (conflict_free_find [] entries rq r Hc Hacc Hin).
    + intros e He. apply filter_In in He as [_ He].
      apply negb_true_iff in He. apply not_true_is_false. intros Hm.
      apply not_true_iff_false in He. apply He.
      apply existsb_exists. now exists (rq, r).
  - exfalso. clear - Hhas Hnamed.
    induction cs as [|[n c] cs IH]; simpl in *; [discriminate|].
    destruct (String.eqb n cache); [discriminate|]. now apply IH.
Qed.

(** ** Installation and messages *)

Section HandlerProofs.

Variable location : URL.
Variable resolve : string -> string.
Variable origin_of : string -> string.

Lemma keys_of_requests (us : list string) (entries : list (Request * Response)) :
  map fst entries = map (Request_of resolve origin_of) us ->
  map entry_key entries = map (fun u => exclude_fragment (resolve u)) us.
Proof.
  revert entries; induction us as [|u us IH]; intros [|e entries] H;
    try discriminate; [reflexivity|].
  simpl in H. injection H as He Hrest. simpl.
  rewrite (IH entries Hrest). unfold entry_key. now rewrite He.
Qed.

Lemma Request_of_matches (u u' : string) (r : Response) :
  vary_star r = false ->
  exclude_fragment (resolve u') = exclude_fragment (resolve u) ->
  entry_matches (Request_of resolve origin_of u') (Request_of resolve origin_of u, r) = true.
Proof.
  intros Hv Hk. unfold entry_matches, request_matches.
  cbn [fst snd Request_of method url href request_headers].
  rewrite Hk. rewrite (String.eqb_refl (exclude_fragment (resolve u))).
  change (String.eqb "GET" "GET") with true. cbn [andb].
  unfold vary_star in Hv. revert Hv.
  induction (vary_fields r) as [|f fs IH]; [reflexivity|].
  cbn [existsb forallb]. intros Hv. apply orb_false_elim in Hv as [Hf Hfs].
  rewrite Hf, (IH Hfs). reflexivity.
Qed.

(** A list that names a URL twice is a batch with a conflict. *)
Lemma repeats_conflict (pre entries : list (Request * Response)) :
  Forall (fun e => accepts_put (fst e) (snd e) = true /\
                   exists u, fst e = Request_of resolve origin_of u) entries ->
  repeats (map entry_key entries) = true ->
  batch_conflict pre entries = true.
Proof.
  revert pre; induction entries as [|[rq0 r0] rest IH]; intros pre Hall Hrep;
    [discriminate|].
  apply Forall_cons_1 in Hall as [[Hacc0 [u0 Hu0]] Hall]. simpl in Hacc0, Hu0.
  simpl in Hrep. simpl. apply orb_true_iff. right.
  apply orb_prop in Hrep as [Hhead|Hrest]; [|now apply IH].
  apply existsb_exists in Hhead as (k & Hk & Heq). apply String.eqb_eq in Heq. subst k.
  apply in_map_iff in Hk as ([rq1 r1] & Hkey & Hin).
  apply (conflict_found _ _ (rq0, r0) (rq1, r1));
    [apply in_or_app; right; now left|exact Hin|].
  rewrite Forall_forall in Hall.
  destruct (Hall (rq1, r1) ltac:(now apply list_elem_of_In)) as [_ [u1 Hu1]].
  simpl in Hu1. simpl. subst rq0 rq1.
  apply Request_of_matches.
  - unfold accepts_put in Hacc0. apply andb_prop in Hacc0 as [_ Hv].
    now apply negb_true_iff in Hv.
  - exact Hkey.
Qed.

Lemma requests_of_entries (net : Network) (us : list string)
      (entries : list (Request * Response)) :
  fetch_all net (map (Request_of resolve origin_of) us) = Fulfilled entries ->
  Forall (fun e => accepts_put (fst e) (snd e) = true /\
                   exists u, fst e = Request_of resolve origin_of u) entries.
Proof.
  intros Hf. destruct (fetch_all_entries net _ entries Hf) as [Hmap Hall].
  rewrite Forall_forall in *. intros e He. split; [now apply Hall|].
  assert (Hin : In (fst e) (map (Request_of resolve origin_of) us)).
  { rewrite <- Hmap. apply in_map. now apply list_elem_of_In. }
  apply in_map_iff in Hin as (u & Hu & _). now exists u.
Qed.

(** [cache.addAll] of URLs given as strings: it is rejected when a fetch is
    refused or a URL is named twice, and then nothing has changed;
    otherwise the cache answers each of the requests with the response
    fetched for it. *)
Lemma addAll_urls_rejected (net : Network) (cache : string) (us : list string)
      (w : World) :
  forallb (fetchable net) (map (Request_of resolve origin_of) us) = false \/
  repeats (map (fun u => exclude_fragment (resolve u)) us) = true ->
  (exists e, fst (cache_addAll net cache (map (Request_of resolve origin_of) us) w) =
             Rejected e) /\
  snd (cache_addAll net cache (map (Request_of resolve origin_of) us) w) = w.
Proof.
  intros [Hall|Hrep].
  - rewrite (addAll_refused net cache _ w Hall). split; [now eexists|reflexivity].
  - destruct (fetch_all net (map (Request_of resolve origin_of) us)) as [entries|e] eqn:Hf.
    + rewrite (addAll_conflict net cache _ w entries Hf).
      * split; [now eexists|reflexivity].
      * apply repeats_conflict; [now apply (requests_of_entries net us)|].
        rewrite (keys_of_requests us entries); [exact Hrep|].
        apply (fetch_all_entries net _ entries Hf).
    + unfold cache_addAll. rewrite Hf. split; [now eexists|reflexivity].
Qed.

Lemma addAll_urls_conflict (net : Network) (cache : string) (us : list string)
      (w : World) :
  forallb (fetchable net) (map (Request_of resolve origin_of) us) = true ->
  repeats (map (fun u => exclude_fragment (resolve u)) us) = true ->
  cache_addAll net cache (map (Request_of resolve origin_of) us) w =
  (Rejected "InvalidStateError", w).
Proof.
  intros Hall Hrep. destruct (fetch_all_accepts net _ Hall) as (entries & Hf).
  apply (addAll_conflict net cache _ w entries Hf).
  apply repeats_conflict; [now apply (requests_of_entries net us)|].
  rewrite (keys_of_requests us entries); [exact Hrep|].
  apply (fetch_all_entries net _ entries Hf).
Qed.

Lemma addAll_urls_stored (net : Network) (cache : string) (us : list string)
      (w : World) :
  forallb (fetchable net) (map (Request_of resolve origin_of) us) = true ->
  repeats (map (fun u => exclude_fragment (resolve u)) us) = false ->
  storage_has cache (caches w) = true ->
  fst (cache_addAll net cache (map (Request_of resolve origin_of) us) w) = Fulfilled tt /\
  (forall u r,
      In u us ->
      net (Request_of resolve origin_of u) = Fulfilled (Some r) ->
      cache_get cache (Request_of resolve origin_of u)
        (caches (snd (cache_addAll net cache (map (Request_of resolve origin_of) us) w))) =
      Some r) /\
  (forall u r q,
      In u us ->
      net (Request_of resolve origin_of u) = Fulfilled (Some r) ->
      method q = "GET" ->
      request_matches q (Request_of resolve origin_of u) r = true ->
      cache_get cache q (caches w) = None ->
      cache_get cache q
        (caches (snd (cache_addAll net cache (map (Request_of resolve origin_of) us) w))) =
      Some r).
Proof.
  intros Hall Hrep Hhas.
  destruct (fetch_all_accepts net _ Hall) as (entries & Hf).
  destruct (fetch_all_entries net _ entries Hf) as [Hmap Hent].
  assert (Hkeys : repeats (map entry_key entries) = false)
    by now rewrite (keys_of_requests us entries Hmap).
  assert (Hfree : batch_conflict [] entries = false).
  { apply distinct_keys_free; [exact Hkeys|]. intros e p _ []. }
  destruct (addAll_done net cache _ w entries Hf Hfree) as (Hful & Hcs & _).
  rewrite Hcs.
  assert (Hin : forall u r, In u us ->
             net (Request_of resolve origin_of u) = Fulfilled (Some r) ->
             In (Request_of resolve origin_of u, r) entries).
  { intros u r Hu Hn.
    assert (Hrq : In (Request_of resolve origin_of u) (map fst entries))
      by (rewrite Hmap; now apply in_map).
    apply in_map_iff in Hrq as ([rq r'] & Heq & He). simpl in Heq. subst rq.
    rewrite Forall_forall in Hent.
    destruct (Hent _ ltac:(apply list_elem_of_In; exact He)) as [_ Hn'].
    simpl in Hn'. rewrite Hn in Hn'. injection Hn' as ->. exact He. }
  split; [exact Hful|]. split.
  - intros u r Hu Hn.
    apply batch_stored_own;
      [exact Hhas|exact Hfree|now apply (accepted_entries net)|now apply Hin].
  - intros u r q Hu Hn Hg Hm Hold.
    apply (batch_stored cache entries (caches w) q (Request_of resolve origin_of u) r);
      try assumption.
    apply distinct_keys_find; [exact Hkeys|now apply Hin|exact Hm].
Qed.

(** The world in which [cache.addAll] runs once the cache is open. *)
Lemma open_then_addAll (net : Network) (name : string) (requests : list Request)
      (w : World) :
  (caches_open name >>= fun cache => cache_addAll net cache requests) w =
  cache_addAll net name requests
    {| caches := storage_open name (caches w); pending := pending w;
       store_log := store_log w ++ [OpOpen name]; shown := shown w |}.
Proof. chain. reflexivity. Qed.

Lemma install_result (net : Network) (w : World) :
  install_listener resolve origin_of net w =
  ((Fulfilled tt, [SkipWaiting]),
   snd (cache_addAll net STATIC_CACHE
          (map (Request_of resolve origin_of) staticAssets)
          {| caches := storage_open STATIC_CACHE (caches w); pending := pending w;
             store_log := store_log w ++ [OpOpen STATIC_CACHE]; shown := shown w |})).
Proof.
  unfold install_listener, catch_. rewrite open_then_addAll.
  destruct (cache_addAll _ _ _ _) as [[[]|e] w']; reflexivity.
Qed.

(** X12: installation never fails.  Whatever the network does, the promise
    the install handler waits for is fulfilled and the worker skips waiting;
    the static cache exists afterwards and no other cache answers
    differently.  When one of the files cannot be fetched and stored, or
    when two of them resolve to the same URL, none is stored: every cache,
    the static one included, answers as before. *)
Theorem X12_install_never_fails (net : Network) (w : World) :
  fst (install_listener resolve origin_of net w) = (Fulfilled tt, [SkipWaiting]) /\
  storage_has STATIC_CACHE (caches (snd (install_listener resolve origin_of net w))) = true /\
  pending (snd (install_listener resolve origin_of net w)) = pending w /\
  (forall n q,
      n <> STATIC_CACHE ->
      cache_get n q (caches (snd (install_listener resolve origin_of net w))) =
      cache_get n q (caches w)) /\
  (forallb (fetchable net) (map (Request_of resolve origin_of) staticAssets) = false ->
   forall n q,
     cache_get n q (caches (snd (install_listener resolve origin_of net w))) =
     cache_get n q (caches w)) /\
  (repeats (map (fun u => exclude_fragment (resolve u)) staticAssets) = true ->
   forall n q,
     cache_get n q (caches (snd (install_listener resolve origin_of net w))) =
     cache_get n q (caches w)).
Proof.
  rewrite install_result. cbn [fst snd].
  match goal with |- context [cache_addAll net ?c ?rs ?W] =>
    destruct (addAll_frame net c rs W) as (Hhas & Hpd & _ & Hother & _) end.
  split; [reflexivity|]. split; [|split; [|split; [|split]]].
  - rewrite Hhas. apply storage_has_open.
  - exact Hpd.
  - intros n q Hne. rewrite Hother by exact Hne. apply cache_get_open.
  - intros Hall n q.
    match goal with |- context [cache_addAll net ?c _ ?W] =>
      rewrite (proj2 (addAll_urls_rejected net c staticAssets W (or_introl Hall))) end.
    apply cache_get_open.
  - intros Hrep n q.
    match goal with |- context [cache_addAll net ?c _ ?W] =>
      rewrite (proj2 (addAll_urls_rejected net c staticAssets W (or_intror Hrep))) end.
    apply cache_get_open.
Qed.

Lemma install_stored (net : Network) (w : World) :
  forallb (fetchable net) (map (Request_of resolve origin_of) staticAssets) = true ->
  repeats (map (fun u => exclude_fragment (resolve u)) staticAssets) = false ->
  (forall u r,
      In u staticAssets ->
      net (Request_of resolve origin_of u) = Fulfilled (Some r) ->
      cache_get STATIC_CACHE (Request_of resolve origin_of u)
        (caches (snd (install_listener resolve origin_of net w))) = Some r) /\
  (forall u r q,
      In u staticAssets ->
      net (Request_of resolve origin_of u) = Fulfilled (Some r) ->
      method q = "GET" ->
      request_matches q (Request_of resolve origin_of u) r = true ->
      cache_get STATIC_CACHE q (caches w) = None ->
      cache_get STATIC_CACHE q
        (caches (snd (install_listener resolve origin_of net w))) = Some r).
Proof.
  intros Hall Hrep. rewrite install_result. cbn [snd].
  match goal with |- context [cache_addAll net ?c _ ?W] =>
    destruct (addAll_urls_stored net c staticAssets W Hall Hrep (storage_has_open _ _))
      as (_ & Hown & Hany) end.
  split; [exact Hown|].
  intros u r q Hu Hn Hg Hm Hold. apply (Hany u r q Hu Hn Hg Hm).
  cbn [caches]. now rewrite cache_get_open.
Qed.

(** X13: when every file of the list is fetched with a response that can be
    stored, and no two files resolve to the same URL, the static cache
    answers afterwards the request of each file with the response that the
    network gave for it, and the promise the handler waits for is
    fulfilled. *)
Theorem X13_install_stores_assets (net : Network) (w : World) (u : string)
        (r : Response) :
  forallb (fetchable net) (map (Request_of resolve origin_of) staticAssets) = true ->
  repeats (map (fun u => exclude_fragment (resolve u)) staticAssets) = false ->
  In u staticAssets ->
  net (Request_of resolve origin_of u) = Fulfilled (Some r) ->
  cache_get STATIC_CACHE (Request_of resolve origin_of u)
    (caches (snd (install_listener resolve origin_of net w))) = Some r /\
  fst (install_listener resolve origin_of net w) = (Fulfilled tt, [SkipWaiting]).
Proof.
  intros Hall Hrep Hin Hn. split.
  - now apply (proj1 (install_stored net w Hall Hrep)).
  - now rewrite install_result.
Qed.

(** X14: installed, then served without the network.  After an installation
    in which every file was fetched and stored, a [GET] request that gets
    the cache-first treatment and matches the stored request of one of the
    files is answered with the response fetched at installation, whatever
    the network does, provided that before the installation neither a cache
    created before the static one nor the static cache itself answered the
    request. *)
Theorem X14_installed_then_served (net net2 : Network) (w : World) (u : string)
        (r : Response) (request : Request) :
  forallb (fetchable net) (map (Request_of resolve origin_of) staticAssets) = true ->
  repeats (map (fun u => exclude_fragment (resolve u)) staticAssets) = false ->
  In u staticAssets ->
  net (Request_of resolve origin_of u) = Fulfilled (Some r) ->
  method request = "GET" ->
  request_matches request (Request_of resolve origin_of u) r = true ->
  cache_first_applies location request = true ->
  storage_match (preceding STATIC_CACHE (caches w)) request = None ->
  cache_get STATIC_CACHE request (caches w) = None ->
  fst (fetch_listener location resolve net2 request
         (snd (install_listener resolve origin_of net w))) =
  RespondWith (Fulfilled (Some r)).
Proof.
  intros Hall Hrep Hin Hn Hg Hm Ha Hpre Hold.
  apply hit_answer; [exact Ha|].
  unfold cached. rewrite Hg. simpl.
  apply (storage_match_via_cache STATIC_CACHE).
  - now apply (proj2 (install_stored net w Hall Hrep) u r request).
  - rewrite install_result. cbn [snd].
    match goal with |- context [cache_addAll net ?c ?rs ?W] =>
      destruct (addAll_frame net c rs W) as (_ & _ & -> & _) end.
    cbn [caches]. now rewrite preceding_open.
Qed.

End HandlerProofs.

Section MessageProofs.

Variable resolve : string -> string.
Variable origin_of : string -> string.

Lemma message_calls (net : Network) (data : option MessageData) (w : World) :
  snd (fst (message_listener resolve origin_of net data w)) =
  match data with
  | Some d => if String.eqb (mtype d) "SKIP_WAITING" then [SkipWaiting] else []
  | None => []
  end.
Proof.
  unfold message_listener. destruct data as [d|]; [|reflexivity].
  destruct (String.eqb (mtype d) "CACHE_URLS"); [|reflexivity].
  now destruct ((caches_open DYNAMIC_CACHE >>= _) w).
Qed.

(** X15: the message handler acts on two kinds of message only.  It skips
    waiting exactly for a message of type 'SKIP_WAITING' and makes no other
    call; for every message that is not of type 'CACHE_URLS', and for a
    message without data, it leaves the world as it was. *)
Theorem X15_message_kinds (net : Network) (data : option MessageData) (w : World) :
  (snd (fst (message_listener resolve origin_of net data w)) = [SkipWaiting] <->
   exists d, data = Some d /\ mtype d = "SKIP_WAITING") /\
  (snd (fst (message_listener resolve origin_of net data w)) = [] \/
   snd (fst (message_listener resolve origin_of net data w)) = [SkipWaiting]) /\
  ((forall d, data = Some d -> mtype d <> "CACHE_URLS") ->
   fst (fst (message_listener resolve origin_of net data w)) = Fulfilled tt /\
   snd (message_listener resolve origin_of net data w) = w).
Proof.
  rewrite message_calls. split; [|split].
  - destruct data as [d|].
    + destruct (String.eqb_spec (mtype d) "SKIP_WAITING") as [Hs|Hs]; split.
      * intros _. now exists d.
      * reflexivity.
      * discriminate.
      * intros (d' & Heq & Hd'). injection Heq as <-. contradiction.
    + split; [discriminate|]. intros (d & Heq & _). discriminate.
  - destruct data as [d|]; [|now left].
    destruct (String.eqb (mtype d) "SKIP_WAITING"); [now right|now left].
  - intros Hother. unfold message_listener. destruct data as [d|]; [|now split].
    destruct (String.eqb_spec (mtype d) "CACHE_URLS") as [Hc|Hc]; [|now split].
    now destruct (Hother d eq_refl).
Qed.

Lemma cache_urls_result (net : Network) (d : MessageData) (w : World) (us : list string) :
  mtype d = "CACHE_URLS" ->
  urls d = Some us ->
  fst (fst (message_listener resolve origin_of net (Some d) w)) =
    fst (cache_addAll net DYNAMIC_CACHE (map (Request_of resolve origin_of) us)
           {| caches := storage_open DYNAMIC_CACHE (caches w); pending := pending w;
              store_log := store_log w ++ [OpOpen DYNAMIC_CACHE]; shown := shown w |}) /\
  snd (message_listener resolve origin_of net (Some d) w) =
    snd (cache_addAll net DYNAMIC_CACHE (map (Request_of resolve origin_of) us)
           {| caches := storage_open DYNAMIC_CACHE (caches w); pending := pending w;
              store_log := store_log w ++ [OpOpen DYNAMIC_CACHE]; shown := shown w |}).
Proof.
  intros Ht Hus. unfold message_listener. rewrite Ht, Hus.
  change (String.eqb "CACHE_URLS" "CACHE_URLS") with true. cbv iota.
  rewrite (open_then_addAll net DYNAMIC_CACHE).
  now destruct (cache_addAll _ _ _ _).
Qed.

(** X16: a 'CACHE_URLS' message stores all its URLs or none.  When every URL
    is fetched with a response that can be stored and no URL is named
    twice, the dynamic cache answers afterwards the request of each URL
    with the response the network gave for it.  When a fetch is refused the
    promise the handler waits for is rejected with a TypeError, when a URL
    is named twice with an InvalidStateError, and when the message carries
    no list with a TypeError; in these cases every cache answers as
    before. *)
Theorem X16_cache_urls (net : Network) (d : MessageData) (w : World) :
  mtype d = "CACHE_URLS" ->
  (forall us,
      urls d = Some us ->
      forallb (fetchable net) (map (Request_of resolve origin_of) us) = true ->
      repeats (map (fun u => exclude_fragment (resolve u)) us) = false ->
      fst (fst (message_listener resolve origin_of net (Some d) w)) = Fulfilled tt /\
      forall u r,
        In u us ->
        net (Request_of resolve origin_of u) = Fulfilled (Some r) ->
        cache_get DYNAMIC_CACHE (Request_of resolve origin_of u)
          (caches (snd (message_listener resolve origin_of net (Some d) w))) = Some r) /\
  (forall us,
      urls d = Some us ->
      forallb (fetchable net) (map (Request_of resolve origin_of) us) = false ->
      fst (fst (message_listener resolve origin_of net (Some d) w)) = Rejected "TypeError" /\
      forall n q,
        cache_get n q (caches (snd (message_listener resolve origin_of net (Some d) w))) =
        cache_get n q (caches w)) /\
  (forall us,
      urls d = Some us ->
      forallb (fetchable net) (map (Request_of resolve origin_of) us) = true ->
      repeats (map (fun u => exclude_fragment (resolve u)) us) = true ->
      fst (fst (message_listener resolve origin_of net (Some d) w)) =
        Rejected "InvalidStateError" /\
      forall n q,
        cache_get n q (caches (snd (message_listener resolve origin_of net (Some d) w))) =
        cache_get n q (caches w)) /\
  (urls d = None ->
   fst (fst (message_listener resolve origin_of net (Some d) w)) = Rejected "TypeError" /\
   forall n q,
     cache_get n q (caches (snd (message_listener resolve origin_of net (Some d) w))) =
     cache_get n q (caches w)).
Proof.
  intros Ht. split; [|split; [|split]].
  - intros us Hus Hall Hrep.
    destruct (cache_urls_result net d w us Ht Hus) as [-> ->].
    match goal with |- context [cache_addAll net ?c _ ?W] =>
      destruct (addAll_urls_stored resolve origin_of net c us W Hall Hrep
                  (storage_has_open _ _)) as (Hful & Hown & _) end.
    split; [exact Hful|exact Hown].
  - intros us Hus Hall.
    destruct (cache_urls_result net d w us Ht Hus) as [-> ->].
    rewrite addAll_refused by exact Hall. cbn [fst snd caches].
    split; [reflexivity|]. intros n q. apply cache_get_open.
  - intros us Hus Hall Hrep.
    destruct (cache_urls_result net d w us Ht Hus) as [-> ->].
    rewrite (addAll_urls_conflict resolve origin_of) by assumption. cbn [fst snd caches].
    split; [reflexivity|]. intros n q. apply cache_get_open.
  - intros Hnone. unfold message_listener. rewrite Ht, Hnone.
    change (String.eqb "CACHE_URLS" "CACHE_URLS") with true. cbv iota.
    chain. split; [reflexivity|]. intros n q. apply cache_get_open.
Qed.

End MessageProofs.

(** ** Notification clicks *)

Lemma first_window_none (clientList : list Client) :
  first_window clientList = None <->
  Forall (fun c => includes (client_url c) "github.io" && focusable c = false) clientList.
Proof.
  induction clientList as [|c l IH]; cbn [first_window].
  - split; [constructor|reflexivity].
  - destruct (includes (client_url c) "github.io" && focusable c) eqn:E; split.
    + discriminate.
    + intros H. apply Forall_cons_1 in H as [H _]. congruence.
    + intros H. constructor; [exact E|now apply IH].
    + intros H. apply Forall_cons_1 in H as [_ H]. now apply IH.
Qed.

Lemma first_window_some (clientList : list Client) (c : Client) :
  first_window clientList = Some c <->
  exists before after,
    clientList = before ++ c :: after /\
    includes (client_url c) "github.io" && focusable c = true /\
    Forall (fun c' => includes (client_url c') "github.io" && focusable c' = false) before.
Proof.
  induction clientList as [|c0 l IH]; cbn [first_window].
  - split; [discriminate|]. intros (before & after & H & _). now destruct before.
  - destruct (includes (client_url c0) "github.io" && focusable c0) eqn:E; split.
    + intros H. injection H as <-. exists [], l. repeat split; [exact E|constructor].
    + intros (before & after & Hl & Hc & Hb). destruct before as [|b before].
      * cbn [app] in Hl. now injection Hl as <- _.
      * cbn [app] in Hl. injection Hl as <- _.
        apply Forall_cons_1 in Hb as [Hb _]. congruence.
    + intros H. apply IH in H as (before & after & -> & Hc & Hb).
      exists (c0 :: before), after. repeat split; [exact Hc|now constructor].
    + intros (before & after & Hl & Hc & Hb). destruct before as [|b before].
      * cbn [app] in Hl. injection Hl as <- _. congruence.
      * cbn [app] in Hl. injection Hl as <- ->.
        apply Forall_cons_1 in Hb as [_ Hb]. apply IH. now exists before, after.
Qed.

(** X17: a click on a notification always closes it.  On the 'dismiss'
    action nothing else happens.  Otherwise the handler focuses the first
    window, in the order of the list, whose URL holds 'github.io' and that
    can be focused, and only that one; it opens a new window exactly when
    there is no such window and windows can be opened.  It never does
    both. *)
Theorem X17_notification_click (action : string) (clientList : list Client)
        (canOpen : bool) :
  (exists calls,
      notificationclick_listener action clientList canOpen = NotificationClose :: calls /\
      (length calls <= 1)%nat) /\
  (action = "dismiss" ->
   notificationclick_listener action clientList canOpen = [NotificationClose]) /\
  (action <> "dismiss" ->
   (forall address,
       In (ClientFocus address) (notificationclick_listener action clientList canOpen) <->
       exists before c after,
         clientList = before ++ c :: after /\
         client_url c = address /\
         includes (client_url c) "github.io" && focusable c = true /\
         Forall (fun c' => includes (client_url c') "github.io" && focusable c' = false)
                before) /\
   (forall address,
       In (OpenWindow address) (notificationclick_listener action clientList canOpen) <->
       address = "./" /\ canOpen = true /\
       Forall (fun c => includes (client_url c) "github.io" && focusable c = false)
              clientList)).
Proof.
  unfold notificationclick_listener. split; [|split].
  - eexists. split; [reflexivity|].
    destruct (String.eqb action "dismiss"); simpl; [lia|].
    destruct (first_window clientList); simpl; [lia|].
    destruct canOpen; simpl; lia.
  - intros ->. reflexivity.
  - intros Hd. destruct (String.eqb_spec action "dismiss"); [contradiction|].
    destruct (first_window clientList) as [c|] eqn:E; split; intros address; split.
    + intros [H|[H|[]]]; [discriminate|]. injection H as <-.
      apply first_window_some in E as (before & after & Hl & Hc & Hb).
      now exists before, c, after.
    + intros (before & c' & after & Hl & <- & Hc & Hb).
      assert (E' : first_window clientList = Some c')
        by (apply first_window_some; now exists before, after).
      rewrite E in E'. injection E' as <-. right. now left.
    + intros [H|[H|[]]]; discriminate.
    + intros (_ & _ & Hall). apply first_window_none in Hall. congruence.
    + destruct canOpen; intros [H|H]; try discriminate; try destruct H as [H|[]];
        try discriminate; destruct H.
    + intros (before & c' & after & Hl & _ & Hc & Hb).
      assert (E' : first_window clientList = Some c')
        by (apply first_window_some; now exists before, after).
      congruence.
    + destruct canOpen; intros [H|H]; try discriminate.
      * destruct H as [H|[]]. injection H as <-.
        repeat split. now apply first_window_none.
      * destruct H.
    + intros (-> & -> & _). right. now left.
Qed.

(** ** The reminders of a day *)

Lemma evaluate_due (day hours minutes : Z) :
  evaluate day hours minutes <> None <->
  day = 0 /\ hours = 12 /\ minutes = 0 \/
  day <> 0 /\ hours = 8 /\ minutes = 0 \/
  day <> 0 /\ minutes = 30 /\ 8 <= hours <= 21.
Proof.
  schedule_cases day hours minutes; split; intros Hdue;
    try congruence; try lia; try discriminate.
Qed.

Lemma evaluate_weekday (day hours minutes : Z) :
  day <> 0 -> evaluate day hours minutes = evaluate 1 hours minutes.
Proof.
  intros Hd. unfold evaluate, scheduled.
  destruct (Z.eqb_spec day 0); [contradiction|]. reflexivity.
Qed.

(** X18: the reminders of a day.  On every day but day 0 the instants at
    which a reminder is due are 8:00 and the fourteen half hours from 8:30
    to 21:30, fifteen in all; on day 0 there is one, 12:00.  These lists
    hold exactly the instants of a day, minute by minute, for which the
    scheduler gives a message. *)
Theorem X18_reminders_of_day (day : Z) :
  (day <> 0 ->
   reminders_of_day day =
   [(8, 0); (8, 30); (9, 30); (10, 30); (11, 30); (12, 30); (13, 30); (14, 30);
    (15, 30); (16, 30); (17, 30); (18, 30); (19, 30); (20, 30); (21, 30)]) /\
  reminders_of_day 0 = [(12, 0)] /\
  (forall hours minutes,
      In (hours, minutes) (reminders_of_day day) <->
      0 <= hours < 24 /\ 0 <= minutes < 60 /\ evaluate day hours minutes <> None).
Proof.
  split; [|split].
  - intros Hd. transitivity (reminders_of_day 1); [|vm_compute; reflexivity].
    unfold reminders_of_day. apply List.filter_ext. intros [h m]. simpl.
    now rewrite (evaluate_weekday day h m Hd).
  - vm_compute. reflexivity.
  - intros hours minutes. unfold reminders_of_day.
    rewrite filter_In, in_prod_iff, !in_map_iff. cbn [fst snd]. split.
    + intros [[(h & <- & Hh) (m & <- & Hm)] Hdue].
      apply in_seq in Hh. apply in_seq in Hm.
      repeat split; try lia.
      destruct (evaluate day (Z.of_nat h) (Z.of_nat m)); [discriminate|discriminate Hdue].
    + intros (Hh & Hm & Hdue). split; [split|].
      * exists (Z.to_nat hours). split; [lia|]. apply in_seq. lia.
      * exists (Z.to_nat minutes). split; [lia|]. apply in_seq. lia.
      * destruct (evaluate day hours minutes); [reflexivity|contradiction].
Qed.

(** X19: two different instants of the same day at which a reminder is due
    are at least thirty minutes apart. *)
Theorem X19_reminders_spaced (day h1 m1 h2 m2 : Z) :
  evaluate day h1 m1 <> None ->
  evaluate day h2 m2 <> None ->
  (h1, m1) <> (h2, m2) ->
  30 <= Z.abs ((60 * h1 + m1) - (60 * h2 + m2)).
Proof.
  intros H1 H2 Hne. apply evaluate_due in H1. apply evaluate_due in H2.
  assert (h1 <> h2 \/ m1 <> m2).
  { destruct (Z.eq_dec h1 h2) as [->|]; [|now left].
    right. intros ->. now apply Hne. }
  lia.
Qed.

(** X20: a periodic sync only ever shows a reminder.  It changes no cache,
    queues nothing and performs no cache operation; it shows the message
    the scheduler gives for the instant when its tag is 'check-schedule',
    and nothing for any other tag. *)
Theorem X20_periodic_sync (eventTag : string) (now : Date) (stamp : Z) (w : World) :
  caches (snd (periodicsync_listener eventTag now stamp w)) = caches w /\
  pending (snd (periodicsync_listener eventTag now stamp w)) = pending w /\
  store_log (snd (periodicsync_listener eventTag now stamp w)) = store_log w /\
  fst (periodicsync_listener eventTag now stamp w) = Fulfilled tt /\
  shown (snd (periodicsync_listener eventTag now stamp w)) =
    shown w ++
    (if String.eqb eventTag "check-schedule" then
       match evaluate (getDay now) (getHours now) (getMinutes now) with
       | Some message =>
           [{| title := "SWETA - Work Check-in! 💜"; nbody := message;
               tag := ("scheduled-", stamp); requireInteraction := true |}]
       | None => []
       end
     else []).
Proof.
  unfold periodicsync_listener.
  destruct (String.eqb eventTag "check-schedule").
  - rewrite scheduled_message_shown.
    unfold checkScheduledMessages.
    destruct (scheduled _ _ _) as [[|] message]; simpl; repeat split.
  - simpl. rewrite app_nil_r. repeat split.
Qed.

(** ** The further properties on the deployed application *)

Lemma X2_offline_response_witness :
  cache_first_applies app_location data_request = true /\
  offline data_request = Rejected "TypeError: Failed to fetch" /\
  fst (fetch_listener app_location app_resolve offline data_request (world_of [])) =
    RespondWith (Fulfilled (Some offline_response)).
Proof.
  split; [reflexivity|]. split; [reflexivity|].
  apply (X2_offline_response app_location app_resolve offline data_request (world_of [])
           "TypeError: Failed to fetch").
  - reflexivity.
  - reflexivity.
  - reflexivity.
  - discriminate.
Defined.

Lemma X3_offline_page_witness :
  cached (world_installed index_request (ok_response "home")) page_request = None /\
  cached (world_installed index_request (ok_response "home"))
    (new_Request app_location app_resolve "./index.html") = Some (ok_response "home") /\
  fst (fetch_listener app_location app_resolve offline page_request
         (world_installed index_request (ok_response "home"))) =
    RespondWith (Fulfilled (Some (ok_response "home"))).
Proof.
  split; [vm_compute; reflexivity|]. split; [vm_compute; reflexivity|].
  apply (X3_offline_page app_location app_resolve offline page_request
           (world_installed index_request (ok_response "home"))
           "TypeError: Failed to fetch" (ok_response "home")).
  - reflexivity.
  - vm_compute; reflexivity.
  - reflexivity.
  - reflexivity.
  - vm_compute; reflexivity.
Defined.

Lemma X4_answer_settles_witness :
  cache_first_applies app_location page_request = true /\
  exists v,
    fst (fetch_listener app_location app_resolve offline page_request (world_of [])) =
    RespondWith (Fulfilled v).
Proof.
  split; [reflexivity|].
  apply (X4_answer_settles app_location app_resolve offline page_request (world_of [])).
  reflexivity.
Defined.

Lemma X6_only_dynamic_written_witness :
  STATIC_CACHE <> DYNAMIC_CACHE /\
  cache_get STATIC_CACHE data_fragment_request
    (caches (settle (online (ok_response "v2"))
               (snd (fetch_listener app_location app_resolve (online (ok_response "v2"))
                       data_request
                       (world_installed data_request (ok_response "v1")))))) =
  cache_get STATIC_CACHE data_fragment_request
    (caches (world_installed data_request (ok_response "v1"))).
Proof.
  split; [discriminate|].
  apply (X6_only_dynamic_written app_location app_resolve).
  - constructor.
  - discriminate.
Defined.


Lemma X8_refresh_served_next_witness :
  cached (world_with data_request (ok_response "v1")) data_fragment_request =
    Some (ok_response "v1") /\
  accepts_put data_fragment_request (ok_response "v2") = true /\
  fst (fetch_listener app_location app_resolve offline data_fragment_request
         (settle (online (ok_response "v2"))
            (snd (fetch_listener app_location app_resolve (online (ok_response "v2"))
                    data_fragment_request
                    (world_with data_request (ok_response "v1")))))) =
    RespondWith (Fulfilled (Some (ok_response "v2"))).
Proof.
  split; [vm_compute; reflexivity|]. split; [vm_compute; reflexivity|].
  apply (X8_refresh_served_next app_location app_resolve (online (ok_response "v2"))
           offline (online (ok_response "v2")) data_fragment_request
           (world_with data_request (ok_response "v1"))
           (ok_response "v1") (ok_response "v2")).
  - vm_compute; reflexivity.
  - vm_compute; reflexivity.
  - reflexivity.
  - vm_compute; reflexivity.
  - reflexivity.
  - reflexivity.
  - vm_compute; reflexivity.
Defined.

Lemma X9_earlier_cache_shadows_witness :
  storage_match
    (preceding DYNAMIC_CACHE (caches (world_installed data_request (ok_response "v1"))))
    data_fragment_request = Some (ok_response "v1") /\
  fst (fetch_listener app_location app_resolve offline data_fragment_request
         (settle (online (ok_response "v2"))
            (snd (fetch_listener app_location app_resolve (online (ok_response "v2"))
                    data_fragment_request
                    (world_installed data_request (ok_response "v1")))))) =
    RespondWith (Fulfilled (Some (ok_response "v1"))).
Proof.
  split; [vm_compute; reflexivity|].
  apply (X9_earlier_cache_shadows app_location app_resolve (online (ok_response "v2"))
           offline (online (ok_response "v2")) data_fragment_request
           (world_installed data_request (ok_response "v1")) (ok_response "v1")).
  - vm_compute; reflexivity.
  - reflexivity.
  - reflexivity.
  - vm_compute; reflexivity.
Defined.

Lemma X10_miss_then_hit_witness :
  cached (world_of []) data_request = None /\
  accepts_put data_request (ok_response "data") = true /\
  fst (fetch_listener app_location app_resolve offline data_request
         (settle offline
            (snd (fetch_listener app_location app_resolve (online (ok_response "data"))
                    data_request (world_of []))))) =
    RespondWith (Fulfilled (Some (ok_response "data"))).
Proof.
  split; [reflexivity|]. split; [vm_compute; reflexivity|].
  apply (X10_miss_then_hit app_location app_resolve (online (ok_response "data"))
           offline offline data_request (world_of []) (ok_response "data")).
  - reflexivity.
  - vm_compute; reflexivity.
  - reflexivity.
  - reflexivity.
  - reflexivity.
  - discriminate.
  - reflexivity.
Defined.

Lemma X13_install_stores_assets_witness :
  forallb (fetchable (online (ok_response "asset")))
    (map (Request_of app_resolve app_origin_of) staticAssets) = true /\
  repeats (map (fun u => exclude_fragment (app_resolve u)) staticAssets) = false /\
  cache_get STATIC_CACHE
    (Request_of app_resolve app_origin_of
       "https://fonts.googleapis.com/css2?family=Quicksand:wght@400;500;600;700&display=swap")
    (caches (snd (install_listener app_resolve app_origin_of
                    (online (ok_response "asset")) (world_of [])))) =
    Some (ok_response "asset").
Proof.
  split; [vm_compute; reflexivity|]. split; [vm_compute; reflexivity|].
  apply (X13_install_stores_assets app_resolve app_origin_of
           (online (ok_response "asset")) (world_of [])
           "https://fonts.googleapis.com/css2?family=Quicksand:wght@400;500;600;700&display=swap"
           (ok_response "asset")).
  - vm_compute; reflexivity.
  - vm_compute; reflexivity.
  - right. right. right. now left.
  - reflexivity.
Defined.

Lemma X14_installed_then_served_witness :
  request_matches index_request (Request_of app_resolve app_origin_of "./index.html")
    (ok_response "asset") = true /\
  fst (fetch_listener app_location app_resolve offline index_request
         (snd (install_listener app_resolve app_origin_of
                 (online (ok_response "asset")) (world_of [])))) =
    RespondWith (Fulfilled (Some (ok_response "asset"))).
Proof.
  split; [vm_compute; reflexivity|].
  apply (X14_installed_then_served app_location app_resolve app_origin_of
           (online (ok_response "asset")) offline (world_of []) "./index.html"
           (ok_response "asset") index_request).
  - vm_compute; reflexivity.
  - vm_compute; reflexivity.
  - right. now left.
  - reflexivity.
  - reflexivity.
  - vm_compute; reflexivity.
  - reflexivity.
  - reflexivity.
  - reflexivity.
Defined.

Lemma X16_cache_urls_witness :
  mtype (cache_urls_message ["./data.json"; "./data.json#totals"]) = "CACHE_URLS" /\
  fst (fst (message_listener app_resolve app_origin_of (online (ok_response "data"))
              (Some (cache_urls_message ["./data.json"; "./data.json#totals"]))
              (world_of []))) =
    Rejected "InvalidStateError" /\
  fst (fst (message_listener app_resolve app_origin_of offline
              (Some (cache_urls_message ["./data.json"])) (world_of []))) =
    Rejected "TypeError" /\
  cache_get DYNAMIC_CACHE (Request_of app_resolve app_origin_of "./data.json")
    (caches (snd (message_listener app_resolve app_origin_of
                    (online (ok_response "data"))
                    (Some (cache_urls_message ["./data.json"])) (world_of [])))) =
    Some (ok_response "data").
Proof.
  split; [reflexivity|]. split; [|split].
  - destruct (X16_cache_urls app_resolve app_origin_of (online (ok_response "data"))
                (cache_urls_message ["./data.json"; "./data.json#totals"]) (world_of [])
                eq_refl) as (_ & _ & Hrep & _).
    apply (Hrep ["./data.json"; "./data.json#totals"] eq_refl);
      vm_compute; reflexivity.
  - destruct (X16_cache_urls app_resolve app_origin_of offline
                (cache_urls_message ["./data.json"]) (world_of []) eq_refl)
      as (_ & Hfail & _).
    apply (Hfail ["./data.json"] eq_refl). vm_compute; reflexivity.
  - destruct (X16_cache_urls app_resolve app_origin_of (online (ok_response "data"))
                (cache_urls_message ["./data.json"]) (world_of []) eq_refl)
      as (Hdone & _).
    destruct (Hdone ["./data.json"] eq_refl) as [_ Hstored];
      [vm_compute; reflexivity|vm_compute; reflexivity|].
    apply Hstored; [now left|reflexivity].
Defined.

Lemma X19_reminders_spaced_witness :
  evaluate 1 8 0 <> None /\
  evaluate 1 8 30 <> None /\
  30 <= Z.abs ((60 * 8 + 0) - (60 * 8 + 30)).
Proof.
  split; [discriminate|]. split; [discriminate|].
  apply (X19_reminders_spaced 1 8 0 8 30); discriminate.
Defined.
